(** * vector-lib: N dimensional vectors with swizzle access

    A shallow embedding of [src/index.ts]: the class [VecBase] with its
    heirs [Vec2], [Vec3], [Vec4], and the proxy made by [createVecProxy]
    that resolves swizzle keys such as [xy] or [zyx].

    - A JavaScript [number] is an IEEE 754 binary64 value: the primitive
      [float] of Rocq, with its single NaN.
    - The [body] of a vector is a JavaScript array: it can have holes, it
      grows when an index past its end is assigned, and a negative index
      is an ordinary property of the array object.
    - Vectors are objects of a heap; a proxy holds the address of its
      target, so that a swizzle assignment is seen through every alias. *)

From Stdlib Require Import ZArith List String Ascii Floats Bool Lia.
From stdpp Require Import base option list strings gmap.

Local Open Scope string_scope.
Local Open Scope Z_scope.

(** ** Numbers *)

Module Ieee.

(** The value of two numbers is the same: [x === y], or both are NaN.
    The two zeros [+0] and [-0] are the same number. *)
Definition same_number (x y : float) : bool :=
  PrimFloat.eqb x y || (PrimFloat.is_nan x && PrimFloat.is_nan y).

Definition pos_zero : float := 0%float.
Definition neg_zero : float := (-0)%float.

End Ieee.

(** ** Values held by a vector

    The elements of [body] have the TypeScript type [number]; reading past
    the end of an array, or a hole, gives [undefined], and a swizzle read
    can store such a value in a new body. *)

Inductive component :=
| Undefined
| Number (x : float).

Definition ToNumber (c : component) : float :=
  match c with
  | Number x => x
  | Undefined => nan
  end.

(** [typeof c === "number"] *)
Definition typeof_number (c : component) : bool :=
  match c with
  | Number _ => true
  | Undefined => false
  end.

Definition js_add (a b : component) : component :=
  Number (PrimFloat.add (ToNumber a) (ToNumber b)).
Definition js_sub (a b : component) : component :=
  Number (PrimFloat.sub (ToNumber a) (ToNumber b)).
Definition js_mul (a b : component) : component :=
  Number (PrimFloat.mul (ToNumber a) (ToNumber b)).
Definition js_div (a b : component) : component :=
  Number (PrimFloat.div (ToNumber a) (ToNumber b)).

(** ** Arrays

    [items] are the indexed elements, [None] a hole; [props] are the
    properties under a negative key, which [findIndex]'s [-1] can reach. *)

Record jsarray := {
  items : list (option component);
  props : gmap Z component
}.

Definition array_of (l : list component) : jsarray :=
  {| items := Some <$> l; props := ∅ |}.

Definition array_length (a : jsarray) : Z := Z.of_nat (length (items a)).

Definition read_slot (l : list (option component)) (n : nat) : component :=
  match l !! n with
  | Some (Some c) => c
  | _ => Undefined
  end.

(** [l[n] = c]: in range the element is replaced, past the end the array
    grows and the elements in between are holes. *)
Definition write_slot (l : list (option component)) (n : nat) (c : component)
  : list (option component) :=
  if (n <? length l)%nat then <[n := Some c]> l
  else (l ++ replicate (n - length l)%nat None ++ [Some c])%list.

(** [a[i]] *)
Definition array_get (a : jsarray) (i : Z) : component :=
  if i <? 0 then default Undefined (props a !! i)
  else read_slot (items a) (Z.to_nat i).

(** [a[i] = c] *)
Definition array_set (a : jsarray) (i : Z) (c : component) : jsarray :=
  if i <? 0 then {| items := items a; props := <[i := c]> (props a) |}
  else {| items := write_slot (items a) (Z.to_nat i) c; props := props a |}.

(** [a.map(callback)]: the callback is not called on a hole, which stays a
    hole; the new array has no other property. *)
Definition array_map (callback : component -> Z -> component) (a : jsarray)
  : jsarray :=
  {| items := imap (fun i s => (fun v => callback v (Z.of_nat i)) <$> s) (items a);
     props := ∅ |}.

(** [[...a]]: the iterator of an array gives [undefined] for a hole. *)
Definition array_spread (a : jsarray) : list component :=
  default Undefined <$> items a.

(** The elements [reduce] visits: holes are skipped. *)
Definition array_present (a : jsarray) : list component :=
  omap id (items a).

(** A call returns, or throws the [TypeError] of [reduce] on an array with
    no element and no initial value, the one exception of this code. *)
Inductive outcome (A : Type) :=
| Returns (a : A)
| Throws_TypeError.
Arguments Returns {A} a.
Arguments Throws_TypeError {A}.

Definition array_reduce_init {A} (callback : A -> component -> A) (init : A)
    (a : jsarray) : A :=
  fold_left callback (array_present a) init.

Definition array_reduce (callback : component -> component -> component)
    (a : jsarray) : outcome component :=
  match array_present a with
  | [] => Throws_TypeError
  | c :: rest => Returns (fold_left callback rest c)
  end.

(** [swizzles.findIndex(pred)] *)
Fixpoint findIndex_from {A} (pred : A -> bool) (k : Z) (l : list A) : Z :=
  match l with
  | [] => -1
  | x :: rest => if pred x then k else findIndex_from pred (k + 1) rest
  end.

Definition findIndex {A} (pred : A -> bool) (l : list A) : Z :=
  findIndex_from pred 0 l.

(** [p.split("")] *)
Fixpoint split_chars (p : string) : list string :=
  match p with
  | EmptyString => []
  | String c rest => String c EmptyString :: split_chars rest
  end.

(** ** The class VecBase and its heirs *)

Inductive proto :=
| VecBase_prototype
| Vec2_prototype
| Vec3_prototype
| Vec4_prototype.

Record VecObj := {
  prototype : proto;
  swizzles : list string;
  body : jsarray
}.

Definition Vec2_swizzle_particals : list string := ["x"; "y"].
Definition Vec3_swizzle_particals : list string := ["x"; "y"; "z"].
Definition Vec4_swizzle_particals : list string := ["x"; "y"; "z"; "w"].

(** [new VecBase(swizzles, body)]: both properties are stored as given. *)
Definition new_VecBase (swizzles : list string) (body : list component) : VecObj :=
  {| prototype := VecBase_prototype; swizzles := swizzles; body := array_of body |}.

(** [new Vec2(...body)] and its siblings: [super(swizzle_particals, body)]. *)
Definition new_Vec2 (body : list component) : VecObj :=
  {| prototype := Vec2_prototype; swizzles := Vec2_swizzle_particals;
     body := array_of body |}.
Definition new_Vec3 (body : list component) : VecObj :=
  {| prototype := Vec3_prototype; swizzles := Vec3_swizzle_particals;
     body := array_of body |}.
Definition new_Vec4 (body : list component) : VecObj :=
  {| prototype := Vec4_prototype; swizzles := Vec4_swizzle_particals;
     body := array_of body |}.

Module VecBase.

(** [structuredClone] of an array keeps its holes and its properties. *)
Definition structuredClone {A} (a : A) : A := a.

Definition clone (this : VecObj) : VecObj :=
  {| prototype := prototype this;
     swizzles := structuredClone (swizzles this);
     body := structuredClone (body this) |}.

Definition find_swizzle_index (this : VecObj) (swizzle : string) : Z :=
  findIndex (fun v => String.eqb swizzle v) (swizzles this).

Definition get_swizzles (this : VecObj) : list string := swizzles this.

Definition get_dimension (this : VecObj) (dimension : string) : component :=
  array_get (body this) (find_swizzle_index this dimension).

(** The one method that changes [this]: the result is the new state. *)
Definition set_dimension (this : VecObj) (dimension : string) (value : float)
  : VecObj :=
  {| prototype := prototype this;
     swizzles := swizzles this;
     body := array_set (body this) (find_swizzle_index this dimension)
               (Number value) |}.

Definition couple_element_wise (this other : VecObj)
    (callback : component -> component -> component) : VecObj :=
  let clone := clone this in
  {| prototype := prototype clone;
     swizzles := swizzles clone;
     body := array_map (fun v i => callback v (array_get (body other) i))
               (body clone) |}.

Definition add (this other : VecObj) : VecObj :=
  couple_element_wise this other js_add.
Definition subtract (this other : VecObj) : VecObj :=
  couple_element_wise this other js_sub.
Definition divide (this other : VecObj) : VecObj :=
  couple_element_wise this other js_div.
Definition multiply (this other : VecObj) : VecObj :=
  couple_element_wise this other js_mul.

Definition scalar (this : VecObj) (number : float) : VecObj :=
  let clone := clone this in
  let clone :=
    {| prototype := prototype clone;
       swizzles := swizzles clone;
       body := array_map (fun _ _ => Number number) (body clone) |} in
  multiply this clone.

Definition lerp (this other : VecObj) (t : float) : VecObj :=
  couple_element_wise this other (fun a b =>
    if PrimFloat.ltb 1%float t then b
    else if PrimFloat.ltb t 0%float then a
    else js_add a (js_div (js_add a b) (Number 2%float))).

Definition norm (this : VecObj) : float :=
  let total :=
    array_reduce_init (fun acc v => js_add acc (js_mul v v)) (Number 0%float)
      (body this) in
  PrimFloat.sqrt (ToNumber total).

Definition magnitude (this : VecObj) : float := norm this.

Definition dot (this other : VecObj) : outcome component :=
  array_reduce js_add (body (multiply this other)).

Definition normalize (this : VecObj) : VecObj :=
  let norm := norm this in
  scalar this (PrimFloat.div 1%float norm).

(** [Math.pow] is approximated by the implementation: it is taken as it
    comes. *)
Definition projection (Math_pow : float -> float -> float)
    (this other : VecObj) : outcome VecObj :=
  match dot this other with
  | Throws_TypeError => Throws_TypeError
  | Returns dot_product =>
      let norm_power := Math_pow (norm other) 2%float in
      let factor := PrimFloat.div (ToNumber dot_product) norm_power in
      Returns (scalar other factor)
  end.

(** [Math.acos] is approximated by the implementation too. *)
Definition angle (Math_acos : float -> float) (this other : VecObj)
  : outcome float :=
  match dot this other with
  | Throws_TypeError => Throws_TypeError
  | Returns dot_product =>
      let norm_product := PrimFloat.mul (norm this) (norm other) in
      let cosine := PrimFloat.div (ToNumber dot_product) norm_product in
      Returns (Math_acos cosine)
  end.

(** [values[k][i]] on the doubled bodies; the indices of the loop are
    never negative, and an index past the end reads [undefined]. *)
Definition values_at (values : list component) (i : Z) : component :=
  if i <? 0 then Undefined
  else default Undefined (values !! Z.to_nat i).

(** One turn of the loop of [cross]; [result] holds three numbers and
    both [i] and [j] are in range. *)
Definition cross_step (values0 values1 : list component)
    (result : list float) (i : Z) : list float :=
  let i2 := 1 - i in
  let i3 := 4 - i in
  let c1 := i in
  let c2 := i3 in
  let j := if i2 <? 0 then i3 else i2 in
  let result :=
    alter (fun r => PrimFloat.add r
             (ToNumber (js_mul (values_at values0 (c1 + 1))
                               (values_at values1 (c1 + 2)))))
          (Z.to_nat i) result in
  alter (fun r => PrimFloat.sub r
           (ToNumber (js_mul (values_at values0 (c2 - 1))
                             (values_at values1 (c2 - 2)))))
        (Z.to_nat j) result.

(** [None] is the [undefined] returned when [this] has not three
    dimensions. *)
Definition cross (this other : VecObj) : option VecObj :=
  let dimension_count := array_length (body this) in
  if negb (dimension_count =? 3) then None
  else
    let values0 := (array_spread (body this) ++ array_spread (body this))%list in
    let values1 := (array_spread (body other) ++ array_spread (body other))%list in
    let result :=
      fold_left (cross_step values0 values1) [0; 1; 2]
        [0%float; 0%float; 0%float] in
    let clone := clone this in
    Some {| prototype := prototype clone;
            swizzles := swizzles clone;
            body := array_of (Number <$> result) |}.

End VecBase.

(** ** The heap and the proxy

    A vector lives at an address; what [createVecProxy] returns is a view
    of its target with the swizzles it was made with.  A value that is an
    instance of [VecBase] is an address, whether the caller holds the
    object itself or a proxy of it: [instanceof] and a method call go
    through a proxy to its target. *)

Definition loc := positive.

Abbreviation heap := (gmap loc VecObj).

Definition alloc (h : heap) (o : VecObj) : heap * loc :=
  let l := fresh (dom h) in (<[l := o]> h, l).

Record view := {
  target : loc;
  valid_names : list string
}.

Definition createVecProxy (vec : loc) (swizzles : list string) : view :=
  {| target := vec; valid_names := swizzles |}.

(** [Vec2.new(...body)] and its siblings. *)
Definition Vec2_new (h : heap) (body : list component) : heap * view :=
  let '(h', l) := alloc h (new_Vec2 body) in
  (h', createVecProxy l Vec2_swizzle_particals).
Definition Vec3_new (h : heap) (body : list component) : heap * view :=
  let '(h', l) := alloc h (new_Vec3 body) in
  (h', createVecProxy l Vec3_swizzle_particals).
Definition Vec4_new (h : heap) (body : list component) : heap * view :=
  let '(h', l) := alloc h (new_Vec4 body) in
  (h', createVecProxy l Vec4_swizzle_particals).

(** A property key is a string or a symbol. *)
Inductive property_key :=
| KeyString (s : string)
| KeySymbol (id : nat).

(** What a caller can assign through the proxy. *)
Inductive value :=
| VUndefined
| VNumber (x : float)
| VString (s : string)
| VPlainObject (fields : list (string * component))
| VVec (l : loc).

Definition instanceof_VecBase (v : value) : bool :=
  match v with
  | VVec _ => true
  | _ => false
  end.

(** The members of an instance: its two own properties, the methods of
    [VecBase.prototype] (the prototypes of the heirs add nothing but
    [constructor]) and the properties of [Object.prototype]. *)
Definition own_keys : list string := ["swizzles"; "body"].

Definition VecBase_prototype_keys : list string :=
  ["constructor"; "clone"; "find_swizzle_index"; "get_swizzles";
   "get_dimension"; "set_dimension"; "couple_element_wise"; "add";
   "subtract"; "divide"; "multiply"; "scalar"; "lerp"; "angle"; "norm";
   "magnitude"; "projection"; "normalize"; "dot"; "cross"].

Definition Object_prototype_keys : list string :=
  ["constructor"; "__defineGetter__"; "__defineSetter__"; "hasOwnProperty";
   "__lookupGetter__"; "__lookupSetter__"; "isPrototypeOf";
   "propertyIsEnumerable"; "toString"; "valueOf"; "__proto__";
   "toLocaleString"].

(** [Reflect.has(target, p)]; no member has a symbol for key. *)
Definition Reflect_has (p : property_key) : bool :=
  match p with
  | KeyString s =>
      bool_decide
        (s ∈ (own_keys ++ VecBase_prototype_keys ++ Object_prototype_keys)%list)
  | KeySymbol _ => false
  end.

Definition swizzleMatch (swizzles : list string) (val : list string) : bool :=
  if (length val <=? length swizzles)%nat
  then forallb (fun c => bool_decide (c ∈ swizzles)) val
  else false.

(** What the [get] handler returns: [target[p]] for a member, a number or
    [undefined], or the proxy of a new vector. *)
Inductive get_result :=
| GetMember
| GetValue (c : component)
| GetVec (v : view).

(** The vector a swizzle read of two characters or more (or of none) is
    made of, before it is given an address. *)
Definition swizzle_vector (swizzles : list string) (result : list component)
  : VecObj * list string :=
  match length result with
  | 2%nat => (new_Vec2 result, Vec2_swizzle_particals)
  | 3%nat => (new_Vec3 result, Vec3_swizzle_particals)
  | 4%nat => (new_Vec4 result, Vec4_swizzle_particals)
  | _ => (new_VecBase swizzles result, swizzles)
  end.

Definition proxy_get (h : heap) (v : view) (p : property_key)
  : option (heap * get_result) :=
  if Reflect_has p then Some (h, GetMember)
  else match p with
  | KeySymbol _ => Some (h, GetValue Undefined)
  | KeyString s =>
      let chars := split_chars s in
      if negb (swizzleMatch (valid_names v) chars)
      then Some (h, GetValue Undefined)
      else
        t ← h !! target v;
        let result := VecBase.get_dimension t <$> chars in
        match result with
        | [c] => Some (h, GetValue c)
        | _ =>
            let '(o, names) := swizzle_vector (valid_names v) result in
            let '(h', l) := alloc h o in
            Some (h', GetVec (createVecProxy l names))
        end
  end.

(** What the [set] handler returns: the status of [Reflect.set] for a
    member, else its own. *)
Inductive set_result :=
| SetMember
| SetStatus (ok : bool).

(** The loop of the [set] handler: [value] is read again at every turn,
    from the heap as the turns before left it. *)
Fixpoint set_loop (h : heap) (tgt src : loc) (chars : list string)
  : option (heap * bool) :=
  match chars with
  | [] => Some (h, true)
  | dimension :: rest =>
      s ← h !! src;
      match VecBase.get_dimension s dimension with
      | Undefined => Some (h, false)
      | Number dimension_value =>
          t ← h !! tgt;
          set_loop (<[tgt := VecBase.set_dimension t dimension dimension_value]> h)
            tgt src rest
      end
  end.

Definition proxy_set (h : heap) (v : view) (p : property_key) (val : value)
  : option (heap * set_result) :=
  if Reflect_has p then Some (h, SetMember)
  else match p with
  | KeySymbol _ => Some (h, SetStatus false)
  | KeyString s =>
      match val with
      | VVec src =>
          let chars := split_chars s in
          if negb (swizzleMatch (valid_names v) chars)
          then Some (h, SetStatus false)
          else '(h', ok) ← set_loop h (target v) src chars;
               Some (h', SetStatus ok)
      | _ => Some (h, SetStatus false)
      end
  end.

(** ** Sample vectors *)

Definition numbers (l : list float) : list component := Number <$> l.

Definition vec3_123 : VecObj := new_Vec3 (numbers [1; 2; 3]%float).
Definition vec3_456 : VecObj := new_Vec3 (numbers [4; 5; 6]%float).
Definition vec2_10_20 : VecObj := new_Vec2 (numbers [10; 20]%float).

(** The public constructors: [supplied] is the body the caller gives,
    [names] the swizzles of the class, or those given to [VecBase] itself. *)
Inductive constructs (supplied : list component)
  : list string -> VecObj -> Prop :=
| constructs_Vec2 :
    constructs supplied Vec2_swizzle_particals (new_Vec2 supplied)
| constructs_Vec3 :
    constructs supplied Vec3_swizzle_particals (new_Vec3 supplied)
| constructs_Vec4 :
    constructs supplied Vec4_swizzle_particals (new_Vec4 supplied)
| constructs_VecBase (names : list string) :
    constructs supplied names (new_VecBase names supplied).

(** [Vec3.new(1, 2, 3)] in an empty heap, then [Vec2.new(10, 20)]. *)
Definition heap_123 : heap := (Vec3_new ∅ (numbers [1; 2; 3]%float)).1.
Definition view_123 : view := (Vec3_new ∅ (numbers [1; 2; 3]%float)).2.
Definition heap_10_20 : heap := (Vec2_new heap_123 (numbers [10; 20]%float)).1.
Definition view_10_20 : view := (Vec2_new heap_123 (numbers [10; 20]%float)).2.

(** ** The vectors of the public interface

    [strict] tells the constructions apart: when it is off, a body is what
    the types [VecBody] and [VecBaseBody] allow (one number, or as many as
    the arity) and any key may be read; when it is on, a body has as many
    numbers as the vector has names, the names given to [VecBase] are
    distinct, and a swizzle read has one character at least. *)

Definition vec_invariant (o : VecObj) : Prop :=
  length (swizzles o) = length (items (body o)) /\ NoDup (swizzles o).

Definition body_allowed (strict : bool) (arity : nat) (supplied : list float)
  : Prop :=
  if strict then length supplied = arity
  else length supplied = 1%nat \/ length supplied = arity.

(** The vectors that [Vec2.new], [Vec3.new], [Vec4.new] and the swizzle
    reads return behind a proxy; the proxy has the swizzles of its target. *)
Inductive proxied (strict : bool) : VecObj -> Prop :=
| proxied_Vec2 (supplied : list float) :
    body_allowed strict 2 supplied ->
    proxied strict (new_Vec2 (numbers supplied))
| proxied_Vec3 (supplied : list float) :
    body_allowed strict 3 supplied ->
    proxied strict (new_Vec3 (numbers supplied))
| proxied_Vec4 (supplied : list float) :
    body_allowed strict 4 supplied ->
    proxied strict (new_Vec4 (numbers supplied))
| proxied_read (t : VecObj) (p : string) :
    proxied strict t ->
    Reflect_has (KeyString p) = false ->
    swizzleMatch (swizzles t) (split_chars p) = true ->
    length (split_chars p) <> 1%nat ->
    (strict = true -> split_chars p <> []) ->
    proxied strict
      (swizzle_vector (swizzles t) (VecBase.get_dimension t <$> split_chars p)).1.

Inductive producible (strict : bool) : VecObj -> Prop :=
| producible_proxied (o : VecObj) :
    proxied strict o -> producible strict o
| producible_VecBase (names : list string) (supplied : list float) :
    (1 <= length supplied)%nat ->
    (strict = true -> length names = length supplied /\ NoDup names) ->
    producible strict (new_VecBase names (numbers supplied))
| producible_clone (a : VecObj) :
    producible strict a -> producible strict (VecBase.clone a)
| producible_add (a b : VecObj) :
    producible strict a -> producible strict b ->
    producible strict (VecBase.add a b)
| producible_subtract (a b : VecObj) :
    producible strict a -> producible strict b ->
    producible strict (VecBase.subtract a b)
| producible_divide (a b : VecObj) :
    producible strict a -> producible strict b ->
    producible strict (VecBase.divide a b)
| producible_multiply (a b : VecObj) :
    producible strict a -> producible strict b ->
    producible strict (VecBase.multiply a b)
| producible_scalar (a : VecObj) (number : float) :
    producible strict a -> producible strict (VecBase.scalar a number)
| producible_lerp (a b : VecObj) (t : float) :
    producible strict a -> producible strict b ->
    producible strict (VecBase.lerp a b t)
| producible_normalize (a : VecObj) :
    producible strict a -> producible strict (VecBase.normalize a)
| producible_projection (Math_pow : float -> float -> float) (a b r : VecObj) :
    producible strict a -> producible strict b ->
    VecBase.projection Math_pow a b = Returns r ->
    producible strict r
| producible_cross (a b r : VecObj) :
    producible strict a -> producible strict b ->
    VecBase.cross a b = Some r ->
    producible strict r.

(** The characters of a key are all among [x], [y], [z], [w]. *)
Definition over_xyzw (p : string) : bool :=
  forallb (fun c => bool_decide (c ∈ Vec4_swizzle_particals)) (split_chars p).

(** A closed decidable proposition is settled by evaluation. *)
Ltac by_decide := refine (bool_decide_unpack _ _); vm_compute; exact I.

Module IeeeFacts.
Import Ieee.

Lemma SFcompare_refl (x : spec_float) :
  x <> S754_nan -> SFcompare x x = Some Eq.
Proof.
  destruct x as [s| s | |s m e]; simpl; intros Hx; try congruence.
  - now destruct s.
  - destruct s; rewrite Z.compare_refl, Pos.compare_refl; reflexivity.
Qed.

Lemma same_number_refl (x : float) : same_number x x = true.
Proof.
  unfold same_number, PrimFloat.is_nan.
  rewrite FloatAxioms.eqb_spec. unfold SFeqb.
  destruct (Prim2SF x) eqn:E;
    try (rewrite SFcompare_refl by congruence; reflexivity).
  reflexivity.
Qed.

Lemma same_number_eq (x y : float) :
  Prim2SF x = Prim2SF y -> same_number x y = true.
Proof. intros H%Prim2SF_inj. subst. apply same_number_refl. Qed.

(** Two zeros, of whatever sign, are the same number. *)
Lemma same_number_zeros (x y : float) (s1 s2 : bool) :
  Prim2SF x = S754_zero s1 -> Prim2SF y = S754_zero s2 ->
  same_number x y = true.
Proof.
  intros Hx Hy. unfold same_number. rewrite FloatAxioms.eqb_spec, Hx, Hy. reflexivity.
Qed.

Lemma SFcompare_finite_Eq (s1 s2 : bool) (m1 m2 : positive) (e1 e2 : Z) :
  SFcompare (S754_finite s1 m1 e1) (S754_finite s2 m2 e2) = Some Eq ->
  S754_finite s1 m1 e1 = S754_finite s2 m2 e2.
Proof.
  unfold SFcompare. destruct s1, s2; try discriminate.
  all: destruct (e1 ?= e2) eqn:He; try discriminate.
  all: apply Z.compare_eq in He; subst e2; intros [= H].
  all: change (PosDef.Pos.compare_cont Eq m1 m2) with (Pos.compare m1 m2) in H.
  all: destruct (Pos.compare m1 m2) eqn:Hm; try discriminate.
  all: apply Pos.compare_eq in Hm; by subst.
Qed.

(** Numbers of the same value are one and the same float, but for a
    zero, whose sign the value does not tell. *)
Lemma SFeqb_identical (a b : spec_float) :
  SFeqb a b || (negb (SFeqb a a) && negb (SFeqb b b)) = true ->
  (forall s : bool, b <> S754_zero s) ->
  a = b.
Proof.
  intros H Hnz. unfold SFeqb in H.
  destruct b as [s2| s2| |s2 m2 e2]; [by destruct (Hnz s2)| | |].
  - destruct a as [s1| s1| |s1 m1 e1].
    + simpl in H. by destruct s2.
    + simpl in H. by destruct s1, s2.
    + simpl in H. by destruct s2.
    + destruct s2; simpl in H; by rewrite andb_false_r in H.
  - destruct a as [s1| s1| |s1 m1 e1].
    + simpl in H. done.
    + simpl in H. by destruct s1.
    + done.
    + rewrite (SFcompare_refl (S754_finite s1 m1 e1)) in H by done. done.
  - rewrite (SFcompare_refl (S754_finite s2 m2 e2)) in H by done.
    destruct a as [s1| s1| |s1 m1 e1].
    + simpl in H. by destruct s2.
    + simpl in H. by destruct s1.
    + simpl in H. done.
    + rewrite (SFcompare_refl (S754_finite s1 m1 e1)) in H by done.
      destruct (SFcompare (S754_finite s1 m1 e1) (S754_finite s2 m2 e2))
        as [[| |]|] eqn:Ec; try done.
      by apply SFcompare_finite_Eq.
Qed.

Lemma same_number_identical (x y : float) :
  same_number x y = true ->
  (forall s : bool, Prim2SF y <> S754_zero s) ->
  x = y.
Proof.
  unfold same_number, PrimFloat.is_nan. rewrite !FloatAxioms.eqb_spec.
  intros H Hnz. by apply Prim2SF_inj, SFeqb_identical.
Qed.

Lemma prim_pos_zero : Prim2SF pos_zero = S754_zero false.
Proof. reflexivity. Qed.

(** [0 + p] is [p], but for [p = -0] where it is [+0]. *)
Lemma zero_add_spec (p : float) :
  Prim2SF (PrimFloat.add pos_zero p) =
  match Prim2SF p with
  | S754_zero _ => S754_zero false
  | sp => sp
  end.
Proof.
  rewrite FloatAxioms.add_spec, prim_pos_zero. unfold SF64add, SFadd.
  destruct (Prim2SF p) as [s| s| |s m e]; try reflexivity.
  now destruct s.
Qed.

(** [0 - p] is the opposite of [p], but for [p = +0] where it is [+0]. *)
Lemma zero_sub_spec (p : float) :
  Prim2SF (PrimFloat.sub pos_zero p) =
  match Prim2SF p with
  | S754_zero _ => S754_zero false
  | sp => SFopp sp
  end.
Proof.
  rewrite FloatAxioms.sub_spec, prim_pos_zero. unfold SF64sub, SFsub.
  destruct (Prim2SF p) as [s| s| |s m e]; try reflexivity.
  now destruct s.
Qed.

(** The accumulation [result[i] += p; result[i] -= q] from [0]. *)
Lemma accumulate_add_sub (p q : float) :
  same_number (PrimFloat.sub (PrimFloat.add pos_zero p) q)
              (PrimFloat.sub p q) = true.
Proof.
  pose proof (zero_add_spec p) as H0.
  destruct (Prim2SF p) as [s| s| |s m e] eqn:Ep;
    try (apply same_number_eq; rewrite !FloatAxioms.sub_spec, H0, Ep; reflexivity).
  (* p is a zero: both differences are [-q], or a zero *)
  destruct (Prim2SF q) as [t| t| |t m e] eqn:Eq.
  - apply (same_number_zeros _ _
             (match t with true => false | false => false end)
             (match s, t with true, false => true | _, _ => false end));
      rewrite FloatAxioms.sub_spec, ?H0, ?Ep, Eq; unfold SF64sub, SFsub;
      destruct s, t; reflexivity.
  - apply same_number_eq; rewrite !FloatAxioms.sub_spec, H0, Ep, Eq; reflexivity.
  - apply same_number_eq; rewrite !FloatAxioms.sub_spec, H0, Ep, Eq; reflexivity.
  - apply same_number_eq; rewrite !FloatAxioms.sub_spec, H0, Ep, Eq; reflexivity.
Qed.

(** The accumulation [result[j] -= p; result[j] += q] from [0]. *)
Lemma accumulate_sub_add (p q : float) :
  same_number (PrimFloat.add (PrimFloat.sub pos_zero p) q)
              (PrimFloat.sub q p) = true.
Proof.
  pose proof (zero_sub_spec p) as H0.
  destruct (Prim2SF p) as [s| s| |s m e] eqn:Ep.
  - (* p is a zero *)
    destruct (Prim2SF q) as [t| t| |t m e] eqn:Eq.
    + apply (same_number_zeros _ _
               (match t with true => false | false => false end)
               (match t, s with true, false => true | _, _ => false end)).
      * rewrite FloatAxioms.add_spec, H0, Eq. now destruct t.
      * rewrite FloatAxioms.sub_spec, Ep, Eq. now destruct s, t.
    + apply same_number_eq; rewrite FloatAxioms.add_spec, H0, FloatAxioms.sub_spec, Ep, Eq; reflexivity.
    + apply same_number_eq; rewrite FloatAxioms.add_spec, H0, FloatAxioms.sub_spec, Ep, Eq; reflexivity.
    + apply same_number_eq; rewrite FloatAxioms.add_spec, H0, FloatAxioms.sub_spec, Ep, Eq; reflexivity.
  - apply same_number_eq; rewrite FloatAxioms.add_spec, H0, FloatAxioms.sub_spec, Ep.
    unfold SF64add, SF64sub, SFadd, SFsub, SFopp.
    destruct (Prim2SF q) as [t| t| |t m e]; try reflexivity.
    now destruct s, t.
  - apply same_number_eq; rewrite FloatAxioms.add_spec, H0, FloatAxioms.sub_spec, Ep.
    unfold SF64add, SF64sub, SFadd, SFsub, SFopp.
    now destruct (Prim2SF q).
  - apply same_number_eq; rewrite FloatAxioms.add_spec, H0, FloatAxioms.sub_spec, Ep.
    unfold SF64add, SF64sub, SFadd, SFsub, SFopp.
    destruct (Prim2SF q) as [t| t| |t m' e']; try reflexivity.
    rewrite (Z.min_comm e' e). f_equal.
    destruct s, t; unfold cond_Zopp; simpl negb; cbv iota; lia.
Qed.

End IeeeFacts.

(** ** Arrays: reading after writing *)

Section ArrayFacts.
Implicit Types (l : list (option component)) (a : jsarray) (c : component).

Lemma read_write_slot_same l (n : nat) c :
  read_slot (write_slot l n c) n = c.
Proof.
  unfold read_slot, write_slot.
  destruct (n <? length l)%nat eqn:E.
  - apply Nat.ltb_lt in E. by rewrite list_lookup_insert_eq.
  - apply Nat.ltb_ge in E.
    rewrite lookup_app_r by lia.
    rewrite lookup_app_r by (rewrite length_replicate; lia).
    rewrite length_replicate.
    by replace (n - length l - (n - length l))%nat with 0%nat by lia.
Qed.

Lemma read_write_slot_other l (n m : nat) c :
  n <> m -> read_slot (write_slot l n c) m = read_slot l m.
Proof.
  intros Hnm. unfold read_slot, write_slot.
  destruct (n <? length l)%nat eqn:E.
  - by rewrite list_lookup_insert_ne.
  - apply Nat.ltb_ge in E.
    destruct (decide (m < length l)%nat) as [Hm|Hm].
    + by rewrite lookup_app_l.
    + rewrite (lookup_ge_None_2 l m) by lia.
      rewrite lookup_app_r by lia.
      destruct (decide (m < n)%nat) as [Hlt|Hge].
      * rewrite lookup_app_l by (rewrite length_replicate; lia).
        rewrite lookup_replicate_2 by lia. done.
      * rewrite lookup_app_r by (rewrite length_replicate; lia).
        rewrite length_replicate.
        rewrite lookup_ge_None_2; [done | simpl; lia].
Qed.

Lemma array_get_set_same a (i : Z) c :
  array_get (array_set a i c) i = c.
Proof.
  unfold array_get, array_set. destruct (i <? 0) eqn:E; simpl.
  - by rewrite lookup_insert_eq.
  - apply read_write_slot_same.
Qed.

Lemma array_get_set_other a (i j : Z) c :
  i <> j -> array_get (array_set a i c) j = array_get a j.
Proof.
  intros Hij. unfold array_get, array_set.
  destruct (i <? 0) eqn:Ei, (j <? 0) eqn:Ej; simpl; try done.
  - by rewrite lookup_insert_ne.
  - apply Z.ltb_ge in Ei, Ej. apply read_write_slot_other. lia.
Qed.

(** Writing under a negative key leaves the indexed elements alone. *)
Lemma array_set_negative_items a (i : Z) c :
  i < 0 -> items (array_set a i c) = items a.
Proof. intros Hi. unfold array_set. by rewrite (proj2 (Z.ltb_lt i 0) Hi). Qed.

Lemma array_get_of_list (cs : list component) (n : nat) :
  array_get (array_of cs) (Z.of_nat n) = default Undefined (cs !! n).
Proof.
  unfold array_get, array_of, read_slot; simpl.
  rewrite (proj2 (Z.ltb_ge _ _)) by lia.
  rewrite Nat2Z.id, list_lookup_fmap. by destruct (cs !! n).
Qed.

End ArrayFacts.

(** ** Looking a swizzle up *)

Section FindIndexFacts.
Context {A : Type} (pred : A -> bool).

Lemma findIndex_from_none (l : list A) (k : Z) :
  (forall x, x ∈ l -> pred x = false) -> findIndex_from pred k l = -1.
Proof.
  revert k. induction l as [|y l IH]; intros k Hall; simpl; [done|].
  rewrite Hall by left. apply IH. intros x Hx. apply Hall. by right.
Qed.

Lemma findIndex_from_found (l : list A) (k : Z) :
  (exists x, x ∈ l /\ pred x = true) ->
  exists (n : nat) (x : A),
    findIndex_from pred k l = k + Z.of_nat n /\ l !! n = Some x /\ pred x = true.
Proof.
  revert k. induction l as [|y l IH]; intros k (x & Hin & Hx); simpl.
  - by apply not_elem_of_nil in Hin.
  - destruct (pred y) eqn:Ey.
    + exists 0%nat, y. split; [lia | done].
    + destruct (IH (k + 1)) as (n & z & Hres & Hn & Hz).
      * exists x. split; [|done].
        apply elem_of_cons in Hin as [->|Hin]; [congruence | done].
      * exists (S n), z. split; [lia | done].
Qed.

End FindIndexFacts.

Section DimensionFacts.
Import VecBase.
Implicit Types (this : VecObj) (d : string).

Lemma find_swizzle_index_unknown this d :
  d ∉ swizzles this -> find_swizzle_index this d = -1.
Proof.
  intros Hd. apply findIndex_from_none. intros x Hx.
  apply String.eqb_neq. intros ->. by apply Hd.
Qed.

Lemma find_swizzle_index_known this d :
  d ∈ swizzles this ->
  exists n : nat, find_swizzle_index this d = Z.of_nat n /\
                  swizzles this !! n = Some d.
Proof.
  intros Hd. unfold find_swizzle_index, findIndex.
  destruct (findIndex_from_found (fun v => String.eqb d v) (swizzles this) 0)
    as (n & x & Hres & Hn & Hx).
  - exists d. split; [done | apply String.eqb_refl].
  - apply String.eqb_eq in Hx as <-. exists n. split; [lia | done].
Qed.

(** With distinct names, a name is found where it stands. *)
Lemma find_swizzle_index_NoDup this d (n : nat) :
  NoDup (swizzles this) -> swizzles this !! n = Some d ->
  find_swizzle_index this d = Z.of_nat n.
Proof.
  intros Hnd Hn.
  destruct (find_swizzle_index_known this d) as (m & Hm & Hlook).
  - apply list_elem_of_lookup. eauto.
  - rewrite Hm. f_equal. eapply NoDup_lookup; eauto.
Qed.

(** Two names, one of them known, are not found at the same index. *)
Lemma find_swizzle_index_apart this d d' :
  d ∈ swizzles this -> d <> d' ->
  find_swizzle_index this d <> find_swizzle_index this d'.
Proof.
  intros Hd Hne Heq.
  destruct (find_swizzle_index_known this d Hd) as (n & Hn & Hlook).
  destruct (decide (d' ∈ swizzles this)) as [Hd'|Hd'].
  - destruct (find_swizzle_index_known this d' Hd') as (m & Hm & Hlook').
    rewrite Hn, Hm in Heq. apply Nat2Z.inj in Heq. subst m. congruence.
  - rewrite (find_swizzle_index_unknown this d' Hd'), Hn in Heq. lia.
Qed.

Lemma get_set_dimension_same this d x :
  get_dimension (set_dimension this d x) d = Number x.
Proof. unfold get_dimension, set_dimension; simpl. apply array_get_set_same. Qed.

Lemma get_set_dimension_other this d d' x :
  d ∈ swizzles this -> d <> d' ->
  get_dimension (set_dimension this d x) d' = get_dimension this d'.
Proof.
  intros Hd Hne. unfold get_dimension, set_dimension; simpl.
  apply array_get_set_other. unfold find_swizzle_index at 1 2; simpl.
  by apply find_swizzle_index_apart.
Qed.

(** Writing what is already there changes no read. *)
Lemma get_set_dimension_idem this d d' x :
  d ∈ swizzles this -> get_dimension this d = Number x ->
  get_dimension (set_dimension this d x) d' = get_dimension this d'.
Proof.
  intros Hd Hx. destruct (decide (d = d')) as [<-|Hne].
  - by rewrite get_set_dimension_same.
  - by apply get_set_dimension_other.
Qed.

End DimensionFacts.

(** ** The cross product *)

Section Cross.
Import VecBase Ieee.

(** The loop of [cross] on two bodies of three numbers, turn by turn. *)
Lemma cross_loop (ax ay az bx by_ bz : float) :
  let a := numbers [ax; ay; az] in
  let b := numbers [bx; by_; bz] in
  fold_left (cross_step (a ++ a) (b ++ b)) [0; 1; 2]
    [0%float; 0%float; 0%float] =
  [PrimFloat.sub (PrimFloat.add pos_zero (PrimFloat.mul ay bz))
                 (PrimFloat.mul az by_);
   PrimFloat.add (PrimFloat.sub pos_zero (PrimFloat.mul ax bz))
                 (PrimFloat.mul az bx);
   PrimFloat.sub (PrimFloat.add pos_zero (PrimFloat.mul ax by_))
                 (PrimFloat.mul ay bx)].
Proof. reflexivity. Qed.

Lemma array_spread_numbers (a : jsarray) (l : list float) :
  items a = Some <$> numbers l -> array_spread a = numbers l.
Proof.
  intros H. unfold array_spread. rewrite H, <- list_fmap_compose.
  apply list_fmap_id.
Qed.

End Cross.

(** C1. For every pair of vectors [a], [b] whose bodies hold three numbers,
    [cross] returns a new vector, with the prototype and the swizzles of
    [a], whose three components are the numbers of the standard formulas
    [a.y*b.z - a.z*b.y], [a.z*b.x - a.x*b.z], [a.x*b.y - a.y*b.x]
    (numbers are compared as values: [===], NaN being itself);
    [Vec3(1,2,3).cross(Vec3(4,5,6))] is [(-3,6,-3)]; and on a vector whose
    body has not three elements [cross] returns [undefined]. *)
Theorem cross_standard_formula :
  (forall (a b : VecObj) (ax ay az bx by_ bz : float),
      items (body a) = Some <$> numbers [ax; ay; az] ->
      items (body b) = Some <$> numbers [bx; by_; bz] ->
      exists rx ry rz : float,
        VecBase.cross a b =
          Some {| prototype := prototype a; swizzles := swizzles a;
                  body := array_of (numbers [rx; ry; rz]) |} /\
        Ieee.same_number rx
          (PrimFloat.sub (PrimFloat.mul ay bz) (PrimFloat.mul az by_)) = true /\
        Ieee.same_number ry
          (PrimFloat.sub (PrimFloat.mul az bx) (PrimFloat.mul ax bz)) = true /\
        Ieee.same_number rz
          (PrimFloat.sub (PrimFloat.mul ax by_) (PrimFloat.mul ay bx)) = true) /\
  VecBase.cross vec3_123 vec3_456 = Some (new_Vec3 (numbers [-3; 6; -3]%float)) /\
  (forall a b : VecObj,
      length (items (body a)) <> 3%nat -> VecBase.cross a b = None).
Proof.
  split; [|split].
  - intros a b ax ay az bx by_ bz Ha Hb.
    eexists _, _, _. split.
    + unfold VecBase.cross, array_length. rewrite Ha. simpl negb. cbv iota.
      rewrite (array_spread_numbers (body a) [ax; ay; az] Ha).
      rewrite (array_spread_numbers (body b) [bx; by_; bz] Hb).
      rewrite cross_loop. reflexivity.
    + split; [apply IeeeFacts.accumulate_add_sub|].
      split; [apply IeeeFacts.accumulate_sub_add|].
      apply IeeeFacts.accumulate_add_sub.
  - reflexivity.
  - intros a b Hlen. unfold VecBase.cross, array_length.
    destruct (Z.eqb_spec (Z.of_nat (length (items (body a)))) 3) as [E|E].
    + lia.
    + reflexivity.
Qed.

Lemma cross_standard_formula_witness :
  (exists rx ry rz : float,
      VecBase.cross vec3_123 vec3_456 =
        Some {| prototype := Vec3_prototype; swizzles := Vec3_swizzle_particals;
                body := array_of (numbers [rx; ry; rz]) |} /\
      Ieee.same_number rx (-3)%float = true /\
      Ieee.same_number ry 6%float = true /\
      Ieee.same_number rz (-3)%float = true) /\
  VecBase.cross vec2_10_20 vec2_10_20 = None.
Proof.
  destruct cross_standard_formula as (Hformula & _ & Hundefined).
  split.
  - apply (Hformula vec3_123 vec3_456 1 2 3 4 5 6)%float; reflexivity.
  - apply (Hundefined vec2_10_20 vec2_10_20). simpl. lia.
Defined.

(** The standard formulas and the loop can differ in the sign of a zero:
    on [(0, -0, 0)] and [(0, 0, 1)] the loop gives [+0] for the first
    component, where the formula [a.y*b.z - a.z*b.y] gives [-0]. *)
Example cross_sign_of_zero :
  VecBase.cross (new_Vec3 (numbers [0%float; Ieee.neg_zero; 0%float]))
                (new_Vec3 (numbers [0; 0; 1]%float)) =
    Some (new_Vec3 (numbers [Ieee.pos_zero; Ieee.pos_zero; Ieee.pos_zero])) /\
  PrimFloat.sub (PrimFloat.mul Ieee.neg_zero 1%float)
                (PrimFloat.mul 0%float 0%float) = Ieee.neg_zero /\
  Ieee.pos_zero <> Ieee.neg_zero.
Proof.
  split; [reflexivity|]. split; [reflexivity|].
  intros H. apply (f_equal Prim2SF) in H. vm_compute in H. discriminate.
Qed.

(** ** Element-wise operations *)

Section ElementWise.
Import VecBase.

(** [couple_element_wise] on two bodies of numbers of the same length. *)
Lemma couple_element_wise_numbers (a b : VecObj) (la lb : list float)
    (callback : component -> component -> component) :
  items (body a) = Some <$> numbers la ->
  items (body b) = Some <$> numbers lb ->
  length la = length lb ->
  couple_element_wise a b callback =
    {| prototype := prototype a; swizzles := swizzles a;
       body := array_of
                 (zip_with (fun x y => callback (Number x) (Number y)) la lb) |}.
Proof.
  intros Ha Hb Hlen.
  unfold couple_element_wise, clone, structuredClone, array_map, array_of; simpl.
  do 2 f_equal. rewrite Ha. apply list_eq. intros i.
  rewrite list_lookup_imap, !list_lookup_fmap, lookup_zip_with.
  unfold numbers. rewrite list_lookup_fmap.
  destruct (la !! i) as [x|] eqn:Hx; simpl; [|done].
  destruct (lb !! i) as [y|] eqn:Hy; simpl.
  - do 3 f_equal. unfold array_get, read_slot.
    rewrite (proj2 (Z.ltb_ge _ _)) by lia.
    rewrite Nat2Z.id, Hb. unfold numbers.
    by rewrite !list_lookup_fmap, Hy.
  - apply lookup_lt_Some in Hx. apply lookup_ge_None in Hy. lia.
Qed.

(** The length of the body, holes included, is that of [this]. *)
Lemma couple_element_wise_length (a b : VecObj) callback :
  length (items (body (couple_element_wise a b callback))) =
  length (items (body a)).
Proof. unfold couple_element_wise, array_map; simpl. apply length_imap. Qed.

End ElementWise.

(** C8. For every pair of vectors [a], [b] whose bodies hold the same count
    of numbers and every number [t], [lerp] returns a new vector with the
    swizzles of [a] whose component is, place by place, that of [b] when
    [t > 1], that of [a] when [t < 0], and [a + (a + b) / 2] otherwise. *)
Theorem lerp_per_component :
  forall (a b : VecObj) (la lb : list float) (t : float),
    items (body a) = Some <$> numbers la ->
    items (body b) = Some <$> numbers lb ->
    length la = length lb ->
    VecBase.lerp a b t =
      {| prototype := prototype a; swizzles := swizzles a;
         body := array_of (numbers
           (zip_with (fun x y =>
              if PrimFloat.ltb 1%float t then y
              else if PrimFloat.ltb t 0%float then x
              else PrimFloat.add x (PrimFloat.div (PrimFloat.add x y) 2%float))
            la lb)) |}.
Proof.
  intros a b la lb t Ha Hb Hlen. unfold VecBase.lerp.
  rewrite (couple_element_wise_numbers a b la lb _ Ha Hb Hlen).
  do 2 f_equal. unfold numbers.
  clear Ha Hb. revert lb Hlen. induction la as [|x la IH]; intros [|y lb] Hlen;
    simpl in *; try done.
  f_equal; [|apply IH; lia].
  destruct (PrimFloat.ltb 1 t); [done|]. by destruct (PrimFloat.ltb t 0).
Qed.

Lemma lerp_per_component_witness :
  VecBase.lerp vec3_123 vec3_456 0.5%float =
    new_Vec3 (numbers [3.5; 5.5; 7.5]%float) /\
  VecBase.lerp vec3_123 vec3_456 2%float = new_Vec3 (numbers [4; 5; 6]%float) /\
  VecBase.lerp vec3_123 vec3_456 (-1)%float = new_Vec3 (numbers [1; 2; 3]%float).
Proof.
  split; [|split].
  - apply (lerp_per_component vec3_123 vec3_456 [1; 2; 3]%float [4; 5; 6]%float
             0.5%float); reflexivity.
  - apply (lerp_per_component vec3_123 vec3_456 [1; 2; 3]%float [4; 5; 6]%float
             2%float); reflexivity.
  - apply (lerp_per_component vec3_123 vec3_456 [1; 2; 3]%float [4; 5; 6]%float
             (-1)%float); reflexivity.
Defined.

(** ** Construction and the accessors *)

(** C2, as the code has it. Construction keeps the body it is given and
    never fails, whatever the length of the body: the new vector has the
    names of its class and that very body.  With distinct names,
    [get_dimension(names[i])] is [body[i]]: from exactly [N] numbers [c] it
    is [c[i]]; from one number [v] it is [v] for [i = 0] and [undefined]
    for every other [i], the body having one element. *)
Theorem construct_keeps_body :
  forall (names : list string) (supplied : list component) (o : VecObj),
    constructs supplied names o ->
    swizzles o = names /\
    body o = array_of supplied /\
    (NoDup names ->
     forall (i : nat) (name : string), names !! i = Some name ->
       VecBase.get_dimension o name = default Undefined (supplied !! i)) /\
    (NoDup names ->
     forall (cs : list float) (i : nat) (name : string) (c : float),
       supplied = numbers cs -> length cs = length names ->
       names !! i = Some name -> cs !! i = Some c ->
       VecBase.get_dimension o name = Number c) /\
    (NoDup names ->
     forall (v : float) (i : nat) (name : string),
       supplied = [Number v] -> names !! i = Some name ->
       array_length (body o) = 1 /\
       VecBase.get_dimension o name =
         match i with O => Number v | S _ => Undefined end).
Proof.
  intros names supplied o Hc.
  assert (swizzles o = names /\ body o = array_of supplied) as [Hs Hb]
    by (destruct Hc; done).
  assert (NoDup names -> forall (i : nat) (name : string),
             names !! i = Some name ->
             VecBase.get_dimension o name = default Undefined (supplied !! i))
    as Hget.
  { intros Hnd i name Hi. unfold VecBase.get_dimension.
    rewrite (find_swizzle_index_NoDup o name i), Hb by (rewrite Hs; done).
    apply array_get_of_list. }
  split; [done|]. split; [done|]. split; [done|]. split.
  - intros Hnd cs i name c -> Hlen Hi Hc'.
    rewrite (Hget Hnd i name Hi). unfold numbers.
    by rewrite list_lookup_fmap, Hc'.
  - intros Hnd v i name -> Hi. split.
    + by rewrite Hb.
    + rewrite (Hget Hnd i name Hi). by destruct i.
Qed.

Lemma construct_keeps_body_witness :
  VecBase.get_dimension vec3_123 "y" = Number 2%float /\
  VecBase.get_dimension (new_Vec3 [Number 5%float]) "x" = Number 5%float /\
  VecBase.get_dimension (new_Vec3 [Number 5%float]) "z" = Undefined.
Proof.
  assert (NoDup Vec3_swizzle_particals) as Hnd by by_decide.
  destruct (construct_keeps_body Vec3_swizzle_particals (numbers [1; 2; 3]%float)
              vec3_123 (constructs_Vec3 _)) as (_ & _ & _ & Hfull & _).
  destruct (construct_keeps_body Vec3_swizzle_particals [Number 5%float]
              (new_Vec3 [Number 5%float]) (constructs_Vec3 _))
    as (_ & _ & _ & _ & Hone).
  split; [|split].
  - apply (Hfull Hnd [1; 2; 3]%float 1%nat "y" 2%float); reflexivity.
  - apply (Hone Hnd 5%float 0%nat "x"); reflexivity.
  - apply (Hone Hnd 5%float 2%nat "z"); reflexivity.
Defined.

(** C2 as stated fails: [new Vec3(v)] does not broadcast [v]. *)
Lemma construct_no_broadcast :
  ~ (forall (v : float) (name : string),
        name ∈ Vec3_swizzle_particals ->
        VecBase.get_dimension (new_Vec3 [Number v]) name = Number v).
Proof.
  intros H. specialize (H 5%float "y").
  assert ("y" ∈ Vec3_swizzle_particals) as Hy by by_decide.
  specialize (H Hy). vm_compute in H. discriminate.
Qed.

(** C5, as the code has it. On a name that is not among the swizzles no
    accessor fails: [find_swizzle_index] is [-1], [get_dimension] returns
    what the body holds under the key [-1], [undefined] when nothing was
    stored there, and [set_dimension] stores the value under that key: the
    read of the same name then returns it, the length of the body, its
    elements, and the read of every known name are as before. *)
Theorem unknown_name_accessors :
  forall (this : VecObj) (name : string) (x : float),
    name ∉ swizzles this ->
    VecBase.get_dimension this name =
      default Undefined (props (body this) !! (-1)) /\
    (props (body this) !! (-1) = None ->
     VecBase.get_dimension this name = Undefined) /\
    items (body (VecBase.set_dimension this name x)) = items (body this) /\
    swizzles (VecBase.set_dimension this name x) = swizzles this /\
    VecBase.get_dimension (VecBase.set_dimension this name x) name = Number x /\
    (forall d : string, d ∈ swizzles this ->
       VecBase.get_dimension (VecBase.set_dimension this name x) d =
       VecBase.get_dimension this d).
Proof.
  intros this name x Hname.
  pose proof (find_swizzle_index_unknown this name Hname) as Hidx.
  assert (VecBase.get_dimension this name =
            default Undefined (props (body this) !! (-1))) as Hget.
  { unfold VecBase.get_dimension. by rewrite Hidx. }
  repeat split.
  - done.
  - intros Hnone. by rewrite Hget, Hnone.
  - unfold VecBase.set_dimension; simpl. rewrite Hidx.
    by apply array_set_negative_items.
  - apply get_set_dimension_same.
  - intros d Hd. unfold VecBase.get_dimension, VecBase.set_dimension; simpl.
    apply array_get_set_other. unfold VecBase.find_swizzle_index at 2; simpl.
    intros Heq. symmetry in Heq. revert Heq.
    apply find_swizzle_index_apart; [done | congruence].
Qed.

Lemma unknown_name_accessors_witness :
  VecBase.get_dimension vec3_123 "w" = Undefined /\
  VecBase.get_dimension (VecBase.set_dimension vec3_123 "w" 7%float) "w"
    = Number 7%float /\
  VecBase.get_dimension (VecBase.set_dimension vec3_123 "w" 7%float) "z"
    = Number 3%float.
Proof.
  assert ("w" ∉ swizzles vec3_123) as Hw by by_decide.
  destruct (unknown_name_accessors vec3_123 "w" 7%float Hw)
    as (_ & Hget & _ & _ & Hset & Hothers).
  split; [|split].
  - apply Hget. reflexivity.
  - exact Hset.
  - rewrite (Hothers "z"); [reflexivity | by_decide].
Defined.

(** C5 as stated fails: on the unknown name [w] both accessors return. *)
Lemma unknown_name_no_failure :
  VecBase.get_dimension vec3_123 "w" = Undefined /\
  VecBase.set_dimension vec3_123 "w" 7%float =
    {| prototype := Vec3_prototype;
       swizzles := Vec3_swizzle_particals;
       body := {| items := Some <$> numbers [1; 2; 3]%float;
                  props := {[ -1 := Number 7%float ]} |} |}.
Proof. split; reflexivity. Qed.

(** ** Swizzle patterns *)

Section Patterns.

Lemma swizzleMatch_spec (names chars : list string) :
  swizzleMatch names chars = true <->
  (length chars <= length names)%nat /\ (forall c, c ∈ chars -> c ∈ names).
Proof.
  unfold swizzleMatch.
  destruct (length chars <=? length names)%nat eqn:E.
  - apply Nat.leb_le in E. rewrite forallb_forall. split.
    + intros H. split; [done|]. intros c Hc.
      apply list_elem_of_In, H in Hc. by apply bool_decide_eq_true in Hc.
    + intros [_ H] c Hc. apply bool_decide_eq_true, H. by apply list_elem_of_In.
  - apply Nat.leb_gt in E. split; [done|]. intros [H _]. lia.
Qed.

(** No lower bound is asked of the length: no character, no objection. *)
Lemma swizzleMatch_nil (names : list string) : swizzleMatch names [] = true.
Proof. reflexivity. Qed.

Lemma split_chars_length (p : string) :
  length (split_chars p) = String.length p.
Proof. induction p; simpl; congruence. Qed.

(** A key that is no member and that [swizzleMatch] refuses reads as
    [undefined], and nothing is allocated. *)
Lemma proxy_get_unmatched (h : heap) (v : view) (p : string) :
  Reflect_has (KeyString p) = false ->
  swizzleMatch (valid_names v) (split_chars p) = false ->
  proxy_get h v (KeyString p) = Some (h, GetValue Undefined).
Proof. intros Hm Hs. unfold proxy_get. by rewrite Hm, Hs. Qed.

End Patterns.

Section ProxyFacts.

Lemma swizzle_vector_spec (names : list string) (result : list component) :
  body (swizzle_vector names result).1 = array_of result /\
  (swizzle_vector names result).2 = swizzles (swizzle_vector names result).1.
Proof.
  unfold swizzle_vector.
  destruct (length result) as [|[|[|[|[|n]]]]]; done.
Qed.

Lemma alloc_fresh (h : heap) (o : VecObj) :
  h !! (alloc h o).2 = None /\ (alloc h o).1 = <[(alloc h o).2 := o]> h.
Proof.
  unfold alloc; simpl. split; [|done].
  apply not_elem_of_dom, is_fresh.
Qed.

(** Every proxy the constructors make has the swizzles of its target. *)
Lemma Vec_new_view (h : heap) (supplied : list component) :
  (Vec2_new h supplied).1 !! target (Vec2_new h supplied).2
    = Some (new_Vec2 supplied) /\
  valid_names (Vec2_new h supplied).2 = swizzles (new_Vec2 supplied) /\
  (Vec3_new h supplied).1 !! target (Vec3_new h supplied).2
    = Some (new_Vec3 supplied) /\
  valid_names (Vec3_new h supplied).2 = swizzles (new_Vec3 supplied) /\
  (Vec4_new h supplied).1 !! target (Vec4_new h supplied).2
    = Some (new_Vec4 supplied) /\
  valid_names (Vec4_new h supplied).2 = swizzles (new_Vec4 supplied).
Proof.
  unfold Vec2_new, Vec3_new, Vec4_new, alloc; simpl.
  by rewrite !lookup_insert_eq.
Qed.

End ProxyFacts.

(** C3, at the key the code lets through. The empty string is no member of
    a vector, [swizzleMatch] accepts its empty list of characters, and the
    read of that key through the view of [Vec3.new(1, 2, 3)] is no
    [undefined]: it is the proxy of a new [VecBase] with the three names
    [x], [y], [z] and an empty body. *)
Theorem empty_key_read_yields_vector :
  Reflect_has (KeyString "") = false /\
  swizzleMatch Vec3_swizzle_particals (split_chars "") = true /\
  proxy_get heap_123 view_123 (KeyString "") =
    Some (<[2%positive := new_VecBase Vec3_swizzle_particals []]> heap_123,
          GetVec (createVecProxy 2%positive Vec3_swizzle_particals)).
Proof. repeat split. Qed.

(** ** Reading through the proxy *)

(** C6. Through a view whose target is [t], the read of a key that is no
    member and that is a valid pattern: with one character [c] it returns
    the component of [t] named [c] and leaves the heap as it is; with two
    characters or more it returns the proxy of a vector at a new address,
    whose body has one element for each character, in the order of the
    pattern, the i-th being the component of [t] named by the i-th
    character; every vector of the heap, the target among them, is as
    before.  On [(1, 2, 3)], [zyx] reads [(3, 2, 1)] and [xx] reads
    [(1, 1)]. *)
Theorem swizzle_read_gathers :
  (forall (h : heap) (v : view) (t : VecObj) (p : string),
      h !! target v = Some t ->
      Reflect_has (KeyString p) = false ->
      swizzleMatch (valid_names v) (split_chars p) = true ->
      (1 <= length (split_chars p))%nat ->
      (forall c : string, split_chars p = [c] ->
         proxy_get h v (KeyString p) =
           Some (h, GetValue (VecBase.get_dimension t c))) /\
      ((2 <= length (split_chars p))%nat ->
       exists (l : loc) (o : VecObj),
         proxy_get h v (KeyString p) =
           Some (<[l := o]> h, GetVec (createVecProxy l (swizzles o))) /\
         h !! l = None /\
         body o = array_of (VecBase.get_dimension t <$> split_chars p) /\
         array_length (body o) = Z.of_nat (length (split_chars p)) /\
         (forall (i : nat) (c : string), split_chars p !! i = Some c ->
            array_get (body o) (Z.of_nat i) = VecBase.get_dimension t c) /\
         (forall (l' : loc) (o' : VecObj),
            h !! l' = Some o' -> <[l := o]> h !! l' = Some o'))) /\
  proxy_get heap_123 view_123 (KeyString "zyx") =
    Some (<[2%positive := new_Vec3 (numbers [3; 2; 1]%float)]> heap_123,
          GetVec (createVecProxy 2%positive Vec3_swizzle_particals)) /\
  proxy_get heap_123 view_123 (KeyString "xx") =
    Some (<[2%positive := new_Vec2 (numbers [1; 1]%float)]> heap_123,
          GetVec (createVecProxy 2%positive Vec2_swizzle_particals)).
Proof.
  split; [|split; reflexivity].
  intros h v t p Ht Hmember Hmatch Hlen. split.
  - intros c Hc. unfold proxy_get. rewrite Hmember, Hmatch, Hc. simpl.
    by rewrite Ht.
  - intros Hlen2. unfold proxy_get. rewrite Hmember, Hmatch. simpl.
    rewrite Ht. simpl.
    set (chars := split_chars p) in *.
    set (result := VecBase.get_dimension t <$> chars).
    destruct (swizzle_vector_spec (valid_names v) result) as [Hbody Hnames].
    destruct (alloc_fresh h (swizzle_vector (valid_names v) result).1)
      as [Hfresh Halloc].
    exists (alloc h (swizzle_vector (valid_names v) result).1).2,
           (swizzle_vector (valid_names v) result).1.
    split; [|split; [done|split; [done|split; [|split]]]].
    + assert (forall X (k1 : component -> X) (k2 : X),
                 match result with [c] => k1 c | _ => k2 end = k2) as ->.
      { intros X k1 k2. subst result.
        destruct chars as [|c1 [|c2 chars]]; simpl in *; try lia; done. }
      destruct (swizzle_vector (valid_names v) result) as [o names] eqn:Eo.
      cbn [fst snd] in *. subst names. reflexivity.
    + rewrite Hbody. unfold array_length, array_of, result; simpl.
      by rewrite !length_fmap.
    + intros i c Hi. rewrite Hbody, array_get_of_list. subst result.
      by rewrite list_lookup_fmap, Hi.
    + intros l' o' Hl'. rewrite lookup_insert_ne; [done|]. congruence.
Qed.

Lemma swizzle_read_gathers_witness :
  proxy_get heap_123 view_123 (KeyString "y") =
    Some (heap_123, GetValue (Number 2%float)) /\
  exists (l : loc) (o : VecObj),
    proxy_get heap_123 view_123 (KeyString "zyx") =
      Some (<[l := o]> heap_123, GetVec (createVecProxy l (swizzles o))) /\
    body o = array_of (numbers [3; 2; 1]%float).
Proof.
  destruct swizzle_read_gathers as (Hread & _ & _).
  split.
  - destruct (Hread heap_123 view_123 vec3_123 "y") as [Hone _];
      [reflexivity | reflexivity | reflexivity | simpl; lia |].
    apply (Hone "y"). reflexivity.
  - destruct (Hread heap_123 view_123 vec3_123 "zyx") as [_ Hmany];
      [reflexivity | reflexivity | reflexivity | simpl; lia |].
    destruct Hmany as (l & o & Hget & _ & Hbody & _); [simpl; lia|].
    exists l, o. split; [exact Hget | exact Hbody].
Defined.

(** ** Writing through the proxy *)

(** C10. Whatever the target and the undeclared key, the assignment of a
    value that is no instance of [VecBase] (a number, a string, a plain
    object with numeric fields, [undefined]) returns [false] and leaves the
    whole heap, hence every component of the target, as it is. *)
Theorem swizzle_write_needs_VecBase :
  forall (h : heap) (v : view) (p : property_key) (val : value),
    Reflect_has p = false ->
    instanceof_VecBase val = false ->
    proxy_set h v p val = Some (h, SetStatus false).
Proof.
  intros h v p val Hmember Hinst. unfold proxy_set. rewrite Hmember.
  destruct p as [s|id]; [|done]. by destruct val.
Qed.

Lemma swizzle_write_needs_VecBase_witness :
  proxy_set heap_123 view_123 (KeyString "xy")
    (VPlainObject [("x", Number 10%float); ("y", Number 20%float)]) =
  Some (heap_123, SetStatus false).
Proof.
  apply swizzle_write_needs_VecBase; reflexivity.
Defined.

Section SetLoop.
Import VecBase.
Variables (tgt src : loc).

(** The turns of the loop on characters the source has a number for:
    each writes that number under the same name of the target.  The
    source may be the target itself: what a turn writes is then what it
    has just read, and every read of the source stays as it was. *)
Lemma set_loop_prefix (pre : list string) :
  forall (h : heap) (t s : VecObj) (rest : list string),
    h !! tgt = Some t -> h !! src = Some s ->
    (forall d, d ∈ pre -> d ∈ swizzles t) ->
    (forall d, d ∈ pre -> typeof_number (get_dimension s d) = true) ->
    exists t1 s1 : VecObj,
      set_loop h tgt src (pre ++ rest) =
        set_loop (<[tgt := t1]> h) tgt src rest /\
      <[tgt := t1]> h !! src = Some s1 /\
      (forall d, get_dimension s1 d = get_dimension s d) /\
      swizzles t1 = swizzles t /\
      (forall d, d ∈ pre -> get_dimension t1 d = get_dimension s d) /\
      (forall d, d ∉ pre -> get_dimension t1 d = get_dimension t d).
Proof.
  induction pre as [|d pre IH]; intros h t s rest Ht Hs Hknown Hnum.
  - exists t, s. rewrite insert_id by done.
    repeat split; try done. intros d Hd. by apply not_elem_of_nil in Hd.
  - assert (exists x, get_dimension s d = Number x) as [x Hx].
    { specialize (Hnum d (list_elem_of_here _ _)).
      destruct (get_dimension s d) as [|x]; [done | by exists x]. }
    assert (d ∈ swizzles t) as Hd by apply Hknown, list_elem_of_here.
    set (t' := set_dimension t d x).
    set (h' := <[tgt := t']> h).
    assert (exists s', h' !! src = Some s' /\
                       forall e, get_dimension s' e = get_dimension s e)
      as (s' & Hs' & Hreads).
    { destruct (decide (src = tgt)) as [->|Hne].
      - exists t'. split; [apply lookup_insert_eq|].
        assert (s = t) as -> by congruence.
        intros e. by apply get_set_dimension_idem.
      - exists s. split; [|done]. subst h'. by rewrite lookup_insert_ne. }
    destruct (IH h' t' s' rest) as (t1 & s1 & Hloop & Hs1 & Hreads1 & Hsw & Hin & Hout).
    + apply lookup_insert_eq.
    + done.
    + intros e He. apply Hknown. by right.
    + intros e He. rewrite Hreads. apply Hnum. by right.
    + exists t1, s1. subst h'. rewrite insert_insert_eq in Hloop, Hs1.
      split; [|split; [done|split; [|split; [done|split]]]].
      * simpl. rewrite Hs. simpl. rewrite Hx, Ht. simpl. exact Hloop.
      * intros e. by rewrite Hreads1.
      * intros e He. destruct (decide (e ∈ pre)) as [Hpre|Hpre].
        -- by rewrite Hin, Hreads.
        -- apply elem_of_cons in He as [->|He]; [|done].
           rewrite (Hout d Hpre), Hx. apply get_set_dimension_same.
      * intros e He. apply not_elem_of_cons in He as [Hne Hpre].
        rewrite (Hout e Hpre). apply get_set_dimension_other; [done|congruence].
Qed.

End SetLoop.

(** C4, as the code has it. Through a view made with the names of its
    target [t], the assignment of a vector [s] to a key that is no member
    and is a valid pattern, [s] having a number under each character of the
    pattern, returns [true] and copies by name: for each character [d] of
    the pattern the component of [t] named [d] becomes the component of [s]
    named [d], wherever [d] stands in the pattern; the components of [t]
    under every other name, the names of [t] and every other vector of the
    heap are as before.  Writing [(10, 20)] to [xy] of [(1, 2, 3)] gives
    [(10, 20, 3)]. *)
Theorem swizzle_write_by_name :
  (forall (h : heap) (v : view) (p : string) (src : loc) (t s : VecObj),
      h !! target v = Some t -> h !! src = Some s ->
      valid_names v = swizzles t ->
      Reflect_has (KeyString p) = false ->
      swizzleMatch (valid_names v) (split_chars p) = true ->
      (forall d, d ∈ split_chars p ->
         typeof_number (VecBase.get_dimension s d) = true) ->
      exists t' : VecObj,
        proxy_set h v (KeyString p) (VVec src) =
          Some (<[target v := t']> h, SetStatus true) /\
        swizzles t' = swizzles t /\
        (forall d, d ∈ split_chars p ->
           VecBase.get_dimension t' d = VecBase.get_dimension s d) /\
        (forall d, d ∉ split_chars p ->
           VecBase.get_dimension t' d = VecBase.get_dimension t d)) /\
  proxy_set heap_10_20 view_123 (KeyString "xy") (VVec (target view_10_20)) =
    Some (<[target view_123 := new_Vec3 (numbers [10; 20; 3]%float)]> heap_10_20,
          SetStatus true).
Proof.
  split; [|reflexivity].
  intros h v p src t s Ht Hs Hnames Hmember Hmatch Hnum.
  apply swizzleMatch_spec in Hmatch as Hchars. destruct Hchars as [_ Hchars].
  destruct (set_loop_prefix (target v) src (split_chars p) h t s [] Ht Hs)
    as (t1 & s1 & Hloop & _ & _ & Hsw & Hin & Hout).
  - intros d Hd. rewrite <- Hnames. by apply Hchars.
  - done.
  - exists t1. split; [|done].
    unfold proxy_set. rewrite Hmember, Hmatch. simpl.
    rewrite app_nil_r in Hloop. by rewrite Hloop.
Qed.

Lemma swizzle_write_by_name_witness :
  exists t' : VecObj,
    proxy_set heap_10_20 view_123 (KeyString "yx") (VVec (target view_10_20)) =
      Some (<[target view_123 := t']> heap_10_20, SetStatus true) /\
    VecBase.get_dimension t' "y" = Number 20%float /\
    VecBase.get_dimension t' "x" = Number 10%float /\
    VecBase.get_dimension t' "z" = Number 3%float.
Proof.
  destruct swizzle_write_by_name as [Hwrite _].
  destruct (Hwrite heap_10_20 view_123 "yx" (target view_10_20)
              vec3_123 vec2_10_20) as (t' & Hset & _ & Hin & Hout).
  - reflexivity.
  - reflexivity.
  - reflexivity.
  - reflexivity.
  - reflexivity.
  - intros d Hd. simpl in Hd.
    apply elem_of_cons in Hd as [->|Hd]; [reflexivity|].
    apply elem_of_cons in Hd as [->|Hd]; [reflexivity|].
    by apply not_elem_of_nil in Hd.
  - exists t'. split; [exact Hset|]. split; [|split].
    + rewrite (Hin "y"); [reflexivity | by_decide].
    + rewrite (Hin "x"); [reflexivity | by_decide].
    + rewrite (Hout "z"); [reflexivity | by_decide].
Defined.

(** C4 as stated fails: the write is not by position.  Writing
    [(10, 20)] to [yx] of [(1, 2, 3)] leaves [20] under [y], the component
    of the source named [y], and not [10], its component at the position
    of [y] in the pattern. *)
Lemma swizzle_write_not_by_position :
  ~ (forall (h h' : heap) (v : view) (p : string) (src : loc) (t s t' : VecObj),
        h !! target v = Some t -> h !! src = Some s ->
        valid_names v = swizzles t ->
        Reflect_has (KeyString p) = false ->
        swizzleMatch (valid_names v) (split_chars p) = true ->
        (2 <= length (split_chars p))%nat ->
        proxy_set h v (KeyString p) (VVec src) = Some (h', SetStatus true) ->
        h' !! target v = Some t' ->
        forall (i : nat) (d : string), split_chars p !! i = Some d ->
          VecBase.get_dimension t' d = array_get (body s) (Z.of_nat i)).
Proof.
  intros H.
  assert (2 <= length (split_chars "yx"))%nat as Hlen by (simpl; lia).
  specialize (H heap_10_20
                (<[target view_123 := new_Vec3 (numbers [10; 20; 3]%float)]>
                   heap_10_20)
                view_123 "yx" (target view_10_20) vec3_123 vec2_10_20
                (new_Vec3 (numbers [10; 20; 3]%float))
                eq_refl eq_refl eq_refl eq_refl eq_refl Hlen eq_refl eq_refl
                0%nat "y" eq_refl).
  apply (f_equal (fun c => PrimFloat.eqb (ToNumber c) 20%float)) in H.
  vm_compute in H. discriminate.
Qed.

(** C9, as the code has it. The swizzle write is not atomic.  When the
    source [s] has a number under each character of [pre] and none under
    the character [c] that follows them in the pattern, the write returns
    [false], and the target has by then the components of [s] under the
    names of [pre]; its component under every name that is not in [pre],
    the name [c] among them, is as before. *)
Theorem swizzle_write_not_atomic :
  forall (h : heap) (v : view) (p : string) (src : loc) (t s : VecObj)
         (pre : list string) (c : string) (rest : list string),
    h !! target v = Some t -> h !! src = Some s ->
    valid_names v = swizzles t ->
    Reflect_has (KeyString p) = false ->
    swizzleMatch (valid_names v) (split_chars p) = true ->
    split_chars p = (pre ++ c :: rest)%list ->
    (forall d, d ∈ pre -> typeof_number (VecBase.get_dimension s d) = true) ->
    typeof_number (VecBase.get_dimension s c) = false ->
    exists t' : VecObj,
      proxy_set h v (KeyString p) (VVec src) =
        Some (<[target v := t']> h, SetStatus false) /\
      (forall d, d ∈ pre ->
         VecBase.get_dimension t' d = VecBase.get_dimension s d) /\
      (forall d, d ∉ pre ->
         VecBase.get_dimension t' d = VecBase.get_dimension t d) /\
      VecBase.get_dimension t' c = VecBase.get_dimension t c.
Proof.
  intros h v p src t s pre c rest Ht Hs Hnames Hmember Hmatch Hsplit Hnum Hc.
  apply swizzleMatch_spec in Hmatch as Hchars. destruct Hchars as [_ Hchars].
  destruct (set_loop_prefix (target v) src pre h t s (c :: rest) Ht Hs)
    as (t1 & s1 & Hloop & Hs1 & Hreads & _ & Hin & Hout).
  - intros d Hd. rewrite <- Hnames. apply Hchars. rewrite Hsplit.
    apply elem_of_app. by left.
  - done.
  - assert (c ∉ pre) as Hcpre.
    { intros Hin'. apply Hnum in Hin'. congruence. }
    exists t1. split; [|split; [done|split; [done|by apply Hout]]].
    unfold proxy_set. rewrite Hmember, Hmatch. simpl.
    rewrite Hsplit, Hloop. simpl. rewrite Hs1. simpl.
    rewrite Hreads. by destruct (VecBase.get_dimension s c).
Qed.

Lemma swizzle_write_not_atomic_witness :
  exists t' : VecObj,
    proxy_set heap_10_20 view_123 (KeyString "xz") (VVec (target view_10_20)) =
      Some (<[target view_123 := t']> heap_10_20, SetStatus false) /\
    VecBase.get_dimension t' "x" = Number 10%float /\
    VecBase.get_dimension t' "z" = Number 3%float.
Proof.
  destruct (swizzle_write_not_atomic heap_10_20 view_123 "xz"
              (target view_10_20) vec3_123 vec2_10_20 ["x"] "z" [])
    as (t' & Hset & Hin & _ & Hc).
  - reflexivity.
  - reflexivity.
  - reflexivity.
  - reflexivity.
  - reflexivity.
  - reflexivity.
  - intros d Hd. apply list_elem_of_singleton in Hd as ->. reflexivity.
  - reflexivity.
  - exists t'. split; [exact Hset|]. split.
    + rewrite (Hin "x"); [reflexivity | by_decide].
    + rewrite Hc. reflexivity.
Defined.

(** C9 as stated fails on a pattern that repeats a character.  Writing
    [(10, 20)] to [xzx] of [(1, 2, 3)] fails at [z], and the component
    under [x], a character that also comes after [z], is [10] and no more
    [1]. *)
Lemma swizzle_write_repeated_character :
  ~ (forall (h : heap) (v : view) (p : string) (src : loc) (t s : VecObj)
            (pre : list string) (c : string) (rest : list string),
        h !! target v = Some t -> h !! src = Some s ->
        valid_names v = swizzles t ->
        Reflect_has (KeyString p) = false ->
        swizzleMatch (valid_names v) (split_chars p) = true ->
        split_chars p = (pre ++ c :: rest)%list ->
        (forall d, d ∈ pre -> typeof_number (VecBase.get_dimension s d) = true) ->
        typeof_number (VecBase.get_dimension s c) = false ->
        exists (h' : heap) (t' : VecObj),
          proxy_set h v (KeyString p) (VVec src) = Some (h', SetStatus false) /\
          h' !! target v = Some t' /\
          (forall d, d ∈ pre ->
             VecBase.get_dimension t' d = VecBase.get_dimension s d) /\
          (forall d, d ∈ c :: rest ->
             VecBase.get_dimension t' d = VecBase.get_dimension t d)).
Proof.
  intros H.
  assert (forall d, d ∈ ["x"] ->
            typeof_number (VecBase.get_dimension vec2_10_20 d) = true) as Hpre.
  { intros d Hd. apply list_elem_of_singleton in Hd as ->. reflexivity. }
  destruct (H heap_10_20 view_123 "xzx" (target view_10_20) vec3_123 vec2_10_20
              ["x"] "z" ["x"] eq_refl eq_refl eq_refl eq_refl eq_refl eq_refl
              Hpre eq_refl) as (h' & t' & _ & _ & Hin & Hrest).
  assert ("x" ∈ ["x"]) as Hx1 by by_decide.
  assert ("x" ∈ ["z"; "x"]) as Hx2 by by_decide.
  pose proof (Hin "x" Hx1) as H1. pose proof (Hrest "x" Hx2) as H2.
  rewrite H1 in H2.
  apply (f_equal (fun c => PrimFloat.eqb (ToNumber c) 1%float)) in H2.
  vm_compute in H2. discriminate.
Qed.

(** ** The invariant of the data model *)

Section Invariant.
Import VecBase.

Lemma NoDup_Vec2 : NoDup Vec2_swizzle_particals.
Proof. by_decide. Qed.
Lemma NoDup_Vec3 : NoDup Vec3_swizzle_particals.
Proof. by_decide. Qed.
Lemma NoDup_Vec4 : NoDup Vec4_swizzle_particals.
Proof. by_decide. Qed.

Lemma couple_element_wise_invariant (a b : VecObj) callback :
  vec_invariant a -> vec_invariant (couple_element_wise a b callback).
Proof.
  intros [Hlen Hnd]. split; [|done].
  by rewrite couple_element_wise_length.
Qed.

Lemma scalar_invariant (a : VecObj) (number : float) :
  vec_invariant a -> vec_invariant (scalar a number).
Proof. apply couple_element_wise_invariant. Qed.

Lemma cross_invariant (a b r : VecObj) :
  vec_invariant a -> cross a b = Some r -> vec_invariant r.
Proof.
  intros [Hlen Hnd]. unfold cross, array_length.
  destruct (Z.eqb_spec (Z.of_nat (length (items (body a)))) 3) as [E|E];
    [|done].
  simpl. intros [= <-]. split; [|done]. simpl.
  unfold structuredClone. lia.
Qed.

(** With [strict] on, a proxied vector has four names at most. *)
Lemma proxied_invariant (o : VecObj) :
  proxied true o -> vec_invariant o /\ (length (swizzles o) <= 4)%nat.
Proof.
  induction 1 as [supplied Hb|supplied Hb|supplied Hb|t p Ht IH Hm Hmatch Hne1 Hne0].
  - unfold body_allowed in Hb. split; [split|simpl; lia].
    + simpl. unfold numbers. by rewrite !length_fmap, Hb.
    + apply NoDup_Vec2.
  - unfold body_allowed in Hb. split; [split|simpl; lia].
    + simpl. unfold numbers. by rewrite !length_fmap, Hb.
    + apply NoDup_Vec3.
  - unfold body_allowed in Hb. split; [split|simpl; lia].
    + simpl. unfold numbers. by rewrite !length_fmap, Hb.
    + apply NoDup_Vec4.
  - destruct IH as [[Hlen Hnd] Hfour].
    apply swizzleMatch_spec in Hmatch as [Hle _].
    specialize (Hne0 eq_refl).
    set (chars := split_chars p) in *.
    assert (length (get_dimension t <$> chars) = length chars) as Hres
      by apply length_fmap.
    unfold swizzle_vector. rewrite Hres.
    destruct chars as [|c1 [|c2 [|c3 [|c4 [|c5 chars]]]]]; simpl in *;
      try done; try lia.
    + split; [split; [done | apply NoDup_Vec2] | simpl; lia].
    + split; [split; [done | apply NoDup_Vec3] | simpl; lia].
    + split; [split; [done | apply NoDup_Vec4] | simpl; lia].
Qed.

End Invariant.

(** C7, as the code has it. The invariant (as many names as elements in
    the body, names pairwise distinct) holds of every vector made by
    [Vec2], [Vec3], [Vec4] from exactly two, three, four numbers, by
    [VecBase] from distinct names and as many numbers, by [clone], [add],
    [subtract], [divide], [multiply], [scalar], [lerp], [normalize],
    [projection] or [cross] on such vectors, or by a swizzle read of at
    least one character that yields a vector. *)
Theorem producible_invariant :
  forall o : VecObj, producible true o -> vec_invariant o.
Proof.
  induction 1 as [o Hp|names supplied Hlen Hstrict|a Ha IHa|a b Ha IHa Hb IHb
                 |a b Ha IHa Hb IHb|a b Ha IHa Hb IHb|a b Ha IHa Hb IHb
                 |a number Ha IHa|a b t Ha IHa Hb IHb|a Ha IHa
                 |Math_pow a b r Ha IHa Hb IHb Hr|a b r Ha IHa Hb IHb Hr].
  - by apply proxied_invariant.
  - destruct (Hstrict eq_refl) as [Hn Hnd]. split; [|done].
    simpl. unfold numbers. by rewrite !length_fmap.
  - done.
  - by apply couple_element_wise_invariant.
  - by apply couple_element_wise_invariant.
  - by apply couple_element_wise_invariant.
  - by apply couple_element_wise_invariant.
  - by apply scalar_invariant.
  - by apply couple_element_wise_invariant.
  - by apply scalar_invariant.
  - unfold VecBase.projection in Hr.
    destruct (VecBase.dot a b); [|done].
    injection Hr as <-. by apply scalar_invariant.
  - by apply (cross_invariant a b r).
Qed.

Lemma producible_invariant_witness :
  vec_invariant (VecBase.add vec3_123 vec3_456) /\
  vec_invariant
    (swizzle_vector Vec3_swizzle_particals
       (VecBase.get_dimension vec3_123 <$> split_chars "zy")).1.
Proof.
  assert (proxied true vec3_123) as H123 by (by apply (proxied_Vec3 true [1; 2; 3]%float)).
  assert (proxied true vec3_456) as H456 by (by apply (proxied_Vec3 true [4; 5; 6]%float)).
  split.
  - apply producible_invariant.
    apply producible_add; by apply producible_proxied.
  - apply producible_invariant. apply producible_proxied.
    apply (proxied_read true vec3_123 "zy" H123); try reflexivity.
    + simpl. lia.
    + intros _. discriminate.
Defined.

(** C7 as stated fails: [Vec3.new(5)], a call the type [Vec3Body] allows,
    makes a vector of three names and one component. *)
Lemma producible_breaks_invariant :
  ~ (forall o : VecObj, producible false o -> vec_invariant o).
Proof.
  intros H.
  destruct (H (new_Vec3 (numbers [5%float]))) as [Hlen _].
  - apply producible_proxied, proxied_Vec3. by left.
  - simpl in Hlen. lia.
Qed.

(** * Further properties of the code *)

(** ** Floating-point algebra used by the vector operations *)

Module IeeeAlgebra.

Lemma prim_nan : Prim2SF nan = S754_nan.
Proof. reflexivity. Qed.

Lemma add_comm (x y : float) : PrimFloat.add x y = PrimFloat.add y x.
Proof.
  apply Prim2SF_inj. rewrite !FloatAxioms.add_spec. unfold SF64add, SFadd.
  destruct (Prim2SF x) as [s| s| |s m e], (Prim2SF y) as [t| t| |t m' e'];
    try reflexivity; try (by destruct s, t).
  rewrite (Z.min_comm e' e). f_equal. apply Z.add_comm.
Qed.

Lemma mul_comm (x y : float) : PrimFloat.mul x y = PrimFloat.mul y x.
Proof.
  apply Prim2SF_inj. rewrite !FloatAxioms.mul_spec. unfold SF64mul, SFmul.
  destruct (Prim2SF x) as [s| s| |s m e], (Prim2SF y) as [t| t| |t m' e'];
    try reflexivity; try (by destruct s, t).
  by rewrite (xorb_comm t s), (Pos.mul_comm m' m), (Z.add_comm e' e).
Qed.

Lemma add_nan_r (x : float) : PrimFloat.add x nan = nan.
Proof.
  apply Prim2SF_inj. rewrite FloatAxioms.add_spec, prim_nan.
  unfold SF64add, SFadd. by destruct (Prim2SF x).
Qed.

Lemma sub_nan_r (x : float) : PrimFloat.sub x nan = nan.
Proof.
  apply Prim2SF_inj. rewrite FloatAxioms.sub_spec, prim_nan.
  unfold SF64sub, SFsub. by destruct (Prim2SF x).
Qed.

Lemma mul_nan_r (x : float) : PrimFloat.mul x nan = nan.
Proof.
  apply Prim2SF_inj. rewrite FloatAxioms.mul_spec, prim_nan.
  unfold SF64mul, SFmul. by destruct (Prim2SF x).
Qed.

Lemma div_nan_r (x : float) : PrimFloat.div x nan = nan.
Proof.
  apply Prim2SF_inj. rewrite FloatAxioms.div_spec, prim_nan.
  unfold SF64div, SFdiv. by destruct (Prim2SF x).
Qed.

End IeeeAlgebra.

Section VectorFacts.
Import VecBase.

Lemma zip_with_flip_eq {A B} (f g : A -> A -> B) (la lb : list A) :
  (forall x y, f x y = g y x) -> zip_with f la lb = zip_with g lb la.
Proof.
  intros Hfg. revert lb. induction la as [|x la IH]; intros [|y lb]; simpl;
    try done. by rewrite Hfg, IH.
Qed.

Lemma array_present_of (cs : list component) :
  array_present (array_of cs) = cs.
Proof.
  unfold array_present, array_of; simpl.
  induction cs as [|c cs IH]; simpl; [done|]. by f_equal.
Qed.

(** [map] keeps the holes where they are: an array has an element to
    visit after [map] exactly when it had one before. *)
Lemma omap_imap_nil (f : nat -> component -> component)
    (l : list (option component)) :
  omap id (imap (fun i s => f i <$> s) l) = [] <-> omap id l = [].
Proof.
  revert f. induction l as [|s l IH]; intros f; simpl; [done|].
  destruct s as [c|]; simpl; [done|]. apply (IH (fun i => f (S i))).
Qed.

Lemma array_present_map_nil (callback : component -> Z -> component)
    (a : jsarray) :
  array_present (array_map callback a) = [] <-> array_present a = [].
Proof.
  unfold array_present, array_map; simpl.
  apply (omap_imap_nil (fun i v => callback v (Z.of_nat i))).
Qed.

(** What [scalar] leaves in the body, holes and [undefined] included. *)
Lemma scalar_items (a : VecObj) (number : float) :
  items (body (scalar a number)) =
    (fun s : option component => (fun v => js_mul v (Number number)) <$> s)
      <$> items (body a).
Proof.
  unfold scalar, multiply, couple_element_wise, clone, structuredClone,
    array_map; simpl.
  apply list_eq. intros i.
  rewrite list_lookup_imap, list_lookup_fmap.
  destruct (items (body a) !! i) as [s|] eqn:Hs; simpl; [|done].
  destruct s as [v|]; simpl; [|done].
  do 3 f_equal. unfold array_get, read_slot; simpl.
  rewrite (proj2 (Z.ltb_ge _ _)) by lia.
  by rewrite Nat2Z.id, list_lookup_imap, Hs.
Qed.

End VectorFacts.

Section VectorFacts2.
Import VecBase.

(** One element of the result of [couple_element_wise]: the callback on
    the element of [this] and on what [other.body[i]] reads. *)
Lemma couple_element_wise_get (a b : VecObj) callback (i : nat) (v : component) :
  items (body a) !! i = Some (Some v) ->
  array_get (body (couple_element_wise a b callback)) (Z.of_nat i) =
    callback v (array_get (body b) (Z.of_nat i)).
Proof.
  intros Hv. unfold couple_element_wise, clone, structuredClone, array_map.
  unfold array_get at 1; simpl. rewrite (proj2 (Z.ltb_ge _ _)) by lia.
  unfold read_slot. by rewrite Nat2Z.id, list_lookup_imap, Hv.
Qed.

Lemma array_get_numbers_beyond (b : jsarray) (lb : list float) (i : nat) :
  items b = Some <$> numbers lb -> lb !! i = None ->
  array_get b (Z.of_nat i) = Undefined.
Proof.
  intros Hb Hi. unfold array_get, read_slot.
  rewrite (proj2 (Z.ltb_ge _ _)) by lia.
  rewrite Nat2Z.id, Hb. unfold numbers. by rewrite !list_lookup_fmap, Hi.
Qed.

Lemma fold_left_js_add (l : list float) (acc : float) :
  fold_left js_add (numbers l) (Number acc) =
    Number (fold_left PrimFloat.add l acc).
Proof. revert acc. induction l as [|x l IH]; intros acc; simpl; [done|]. apply IH. Qed.

Lemma zip_with_js_mul (la lb : list float) :
  zip_with (fun x y => js_mul (Number x) (Number y)) la lb =
    numbers (zip_with PrimFloat.mul la lb).
Proof.
  revert lb. induction la as [|x la IH]; intros [|y lb]; simpl; try done.
  by rewrite IH.
Qed.

Lemma multiply_numbers_commute (a b : VecObj) (la lb : list float) :
  items (body a) = Some <$> numbers la ->
  items (body b) = Some <$> numbers lb ->
  length la = length lb ->
  body (multiply a b) = body (multiply b a).
Proof.
  intros Ha Hb Hlen. unfold multiply.
  rewrite (couple_element_wise_numbers a b la lb _ Ha Hb Hlen).
  rewrite (couple_element_wise_numbers b a lb la _ Hb Ha (eq_sym Hlen)).
  simpl. f_equal. apply zip_with_flip_eq. intros x y. unfold js_mul; simpl.
  by rewrite IeeeAlgebra.mul_comm.
Qed.

(** The sum of squares of a body of [+0]s is [+0]. *)
Lemma norm_of_zeros (a : VecObj) (n : nat) :
  items (body a) = Some <$> numbers (replicate n Ieee.pos_zero) ->
  norm a = Ieee.pos_zero.
Proof.
  intros Ha. unfold norm, array_reduce_init, array_present.
  rewrite Ha.
  change (omap id (Some <$> numbers (replicate n Ieee.pos_zero)))
    with (array_present (array_of (numbers (replicate n Ieee.pos_zero)))).
  rewrite array_present_of.
  assert (fold_left (fun acc v => js_add acc (js_mul v v))
            (numbers (replicate n Ieee.pos_zero)) (Number 0%float)
          = Number 0%float) as ->.
  { clear Ha. induction n as [|n IH]; [done|]. simpl. exact IH. }
  reflexivity.
Qed.

End VectorFacts2.

(** ** The accessors *)

(** X1. What [set_dimension] stores under a name, [get_dimension] reads
    back under that name, known or not; the names and the prototype stay,
    and the read under any other name is as before as soon as one of the
    two names is known. *)
Theorem set_then_get_dimension :
  forall (this : VecObj) (d : string) (x : float),
    VecBase.get_dimension (VecBase.set_dimension this d x) d = Number x /\
    swizzles (VecBase.set_dimension this d x) = swizzles this /\
    prototype (VecBase.set_dimension this d x) = prototype this /\
    (forall d' : string, d' <> d ->
       d ∈ swizzles this \/ d' ∈ swizzles this ->
       VecBase.get_dimension (VecBase.set_dimension this d x) d' =
       VecBase.get_dimension this d').
Proof.
  intros this d x. split; [apply get_set_dimension_same|].
  split; [done|]. split; [done|].
  intros d' Hne [Hd|Hd'].
  - apply get_set_dimension_other; [done | congruence].
  - unfold VecBase.get_dimension, VecBase.set_dimension; simpl.
    apply array_get_set_other. unfold VecBase.find_swizzle_index at 2; simpl.
    intros Heq. symmetry in Heq. revert Heq.
    by apply find_swizzle_index_apart.
Qed.

Lemma set_then_get_dimension_witness :
  VecBase.get_dimension (VecBase.set_dimension vec3_123 "y" 9%float) "x"
    = Number 1%float.
Proof.
  destruct (set_then_get_dimension vec3_123 "y" 9%float) as (_ & _ & _ & Hother).
  rewrite (Hother "x"); [reflexivity | discriminate | left; by_decide].
Defined.

(** X2. A write under a known name keeps the length of the body when the
    index of the name is within it; when the body is shorter (a vector made
    from one number) the body grows to that index plus one and the
    elements in between are holes.  The other properties of the array are
    untouched. *)
Theorem set_dimension_body_length :
  forall (this : VecObj) (d : string) (x : float) (n : nat),
    VecBase.find_swizzle_index this d = Z.of_nat n ->
    length (items (body (VecBase.set_dimension this d x))) =
      Nat.max (length (items (body this))) (S n) /\
    props (body (VecBase.set_dimension this d x)) = props (body this) /\
    (forall m : nat, (length (items (body this)) <= m < n)%nat ->
       items (body (VecBase.set_dimension this d x)) !! m = Some None).
Proof.
  intros this d x n Hidx. unfold VecBase.set_dimension, array_set; simpl.
  rewrite Hidx, (proj2 (Z.ltb_ge _ _)) by lia. simpl.
  rewrite Nat2Z.id. unfold write_slot.
  destruct (n <? length (items (body this)))%nat eqn:E.
  - apply Nat.ltb_lt in E. rewrite length_insert.
    split; [lia|]. split; [done|]. intros m Hm. lia.
  - apply Nat.ltb_ge in E. rewrite !length_app, length_replicate. simpl.
    split; [lia|]. split; [done|]. intros m Hm.
    rewrite lookup_app_r by lia.
    rewrite lookup_app_l by (rewrite length_replicate; lia).
    rewrite lookup_replicate_2 by lia. done.
Qed.

Lemma set_dimension_body_length_witness :
  length (items (body (VecBase.set_dimension (new_Vec3 (numbers [5%float]))
                         "z" 7%float))) = 3%nat /\
  items (body (VecBase.set_dimension (new_Vec3 (numbers [5%float]))
                 "z" 7%float)) !! 1%nat = Some None.
Proof.
  destruct (set_dimension_body_length (new_Vec3 (numbers [5%float])) "z"
              7%float 2 eq_refl) as (Hlen & _ & Hholes).
  split; [exact Hlen|]. apply Hholes. simpl. lia.
Defined.

(** ** Arithmetic *)

(** X3. On two bodies of numbers of the same length, [add], [subtract],
    [multiply] and [divide] return a vector with the prototype and the names
    of the receiver whose body is, place by place, the IEEE sum,
    difference, product and quotient. *)
Theorem elementwise_on_numbers :
  forall (a b : VecObj) (la lb : list float),
    items (body a) = Some <$> numbers la ->
    items (body b) = Some <$> numbers lb ->
    length la = length lb ->
    let result (op : float -> float -> float) :=
      {| prototype := prototype a; swizzles := swizzles a;
         body := array_of (numbers (zip_with op la lb)) |} in
    VecBase.add a b = result PrimFloat.add /\
    VecBase.subtract a b = result PrimFloat.sub /\
    VecBase.multiply a b = result PrimFloat.mul /\
    VecBase.divide a b = result PrimFloat.div.
Proof.
  intros a b la lb Ha Hb Hlen.
  assert (forall op : float -> float -> float,
             zip_with (fun x y => Number (op x y)) la lb =
             numbers (zip_with op la lb)) as Hzip.
  { intros op. clear Ha Hb. revert lb Hlen.
    induction la as [|x la IH]; intros [|y lb] Hlen; simpl in *; try done.
    f_equal. apply IH. lia. }
  intros result.
  unfold VecBase.add, VecBase.subtract, VecBase.multiply, VecBase.divide.
  rewrite !(couple_element_wise_numbers a b la lb _ Ha Hb Hlen).
  unfold result, js_add, js_sub, js_mul, js_div; simpl.
  by rewrite !Hzip.
Qed.

Lemma elementwise_on_numbers_witness :
  VecBase.add vec3_123 vec3_456 = new_Vec3 (numbers [5; 7; 9]%float) /\
  VecBase.divide vec3_456 vec3_123 = new_Vec3 (numbers [4; 2.5; 2]%float).
Proof.
  split.
  - apply (elementwise_on_numbers vec3_123 vec3_456 [1; 2; 3]%float
             [4; 5; 6]%float); reflexivity.
  - apply (elementwise_on_numbers vec3_456 vec3_123 [4; 5; 6]%float
             [1; 2; 3]%float); reflexivity.
Defined.

(** X4. No element-wise operation checks the length of its argument: the
    result has the length of the receiver, and where the argument has no
    element the component of the result is NaN. *)
Theorem elementwise_missing_operand :
  forall (a b : VecObj) (la lb : list float),
    items (body a) = Some <$> numbers la ->
    items (body b) = Some <$> numbers lb ->
    length (items (body (VecBase.add a b))) = length la /\
    length (items (body (VecBase.subtract a b))) = length la /\
    length (items (body (VecBase.multiply a b))) = length la /\
    length (items (body (VecBase.divide a b))) = length la /\
    (forall (i : nat) (x : float), la !! i = Some x -> lb !! i = None ->
       array_get (body (VecBase.add a b)) (Z.of_nat i) = Number nan /\
       array_get (body (VecBase.subtract a b)) (Z.of_nat i) = Number nan /\
       array_get (body (VecBase.multiply a b)) (Z.of_nat i) = Number nan /\
       array_get (body (VecBase.divide a b)) (Z.of_nat i) = Number nan).
Proof.
  intros a b la lb Ha Hb.
  assert (length (items (body a)) = length la) as Hlen.
  { rewrite Ha. unfold numbers. by rewrite !length_fmap. }
  unfold VecBase.add, VecBase.subtract, VecBase.multiply, VecBase.divide.
  rewrite !couple_element_wise_length.
  do 4 (split; [done|]).
  intros i x Hx Hi.
  assert (items (body a) !! i = Some (Some (Number x))) as Hv.
  { rewrite Ha. unfold numbers. by rewrite !list_lookup_fmap, Hx. }
  rewrite !(couple_element_wise_get a b _ i (Number x) Hv).
  rewrite (array_get_numbers_beyond (body b) lb i Hb Hi).
  unfold js_add, js_sub, js_mul, js_div; simpl.
  by rewrite IeeeAlgebra.add_nan_r, IeeeAlgebra.sub_nan_r,
    IeeeAlgebra.mul_nan_r, IeeeAlgebra.div_nan_r.
Qed.

Lemma elementwise_missing_operand_witness :
  length (items (body (VecBase.add vec3_123 vec2_10_20))) = 3%nat /\
  array_get (body (VecBase.add vec3_123 vec2_10_20)) 2 = Number nan.
Proof.
  destruct (elementwise_missing_operand vec3_123 vec2_10_20 [1; 2; 3]%float
              [10; 20]%float eq_refl eq_refl) as (Hlen & _ & _ & _ & Hnan).
  split; [exact Hlen|].
  apply (Hnan 2%nat 3%float); reflexivity.
Defined.

(** X5. On two vectors of the same class and names whose bodies hold the
    same count of numbers, [add] and [multiply] do not depend on the order
    of the operands. *)
Theorem add_multiply_commute :
  forall (a b : VecObj) (la lb : list float),
    items (body a) = Some <$> numbers la ->
    items (body b) = Some <$> numbers lb ->
    length la = length lb ->
    prototype a = prototype b -> swizzles a = swizzles b ->
    VecBase.add a b = VecBase.add b a /\
    VecBase.multiply a b = VecBase.multiply b a.
Proof.
  intros a b la lb Ha Hb Hlen Hproto Hnames.
  unfold VecBase.add, VecBase.multiply.
  rewrite !(couple_element_wise_numbers a b la lb _ Ha Hb Hlen).
  rewrite !(couple_element_wise_numbers b a lb la _ Hb Ha (eq_sym Hlen)).
  rewrite Hproto, Hnames. split; do 2 f_equal; apply zip_with_flip_eq;
    intros x y; unfold js_add, js_mul; simpl.
  - by rewrite IeeeAlgebra.add_comm.
  - by rewrite IeeeAlgebra.mul_comm.
Qed.

Lemma add_multiply_commute_witness :
  VecBase.add vec3_123 vec3_456 = VecBase.add vec3_456 vec3_123.
Proof.
  apply (add_multiply_commute vec3_123 vec3_456 [1; 2; 3]%float
           [4; 5; 6]%float); reflexivity.
Defined.

(** X6. [scalar] multiplies every element of the body by the number (an
    [undefined] element gives NaN), leaves the holes as holes, and keeps
    the length, the names and the prototype; on a body of numbers the
    result is the body of the products. *)
Theorem scalar_components :
  forall (a : VecObj) (number : float),
    items (body (VecBase.scalar a number)) =
      (fun s : option component =>
         (fun v => Number (PrimFloat.mul (ToNumber v) number)) <$> s)
        <$> items (body a) /\
    swizzles (VecBase.scalar a number) = swizzles a /\
    prototype (VecBase.scalar a number) = prototype a /\
    (forall la : list float,
       items (body a) = Some <$> numbers la ->
       VecBase.scalar a number =
         {| prototype := prototype a; swizzles := swizzles a;
            body := array_of
                      (numbers ((fun x => PrimFloat.mul x number) <$> la)) |}).
Proof.
  intros a number. split; [apply scalar_items|]. split; [done|]. split; [done|].
  intros la Ha.
  assert (body (VecBase.scalar a number) =
          array_of (numbers ((fun x => PrimFloat.mul x number) <$> la))) as Hb.
  { pose proof (scalar_items a number) as Hitems.
    destruct (body (VecBase.scalar a number)) as [its prs] eqn:E.
    assert (prs = ∅) as -> by (by injection E).
    simpl in Hitems. rewrite Hitems, Ha. unfold array_of, numbers.
    f_equal. rewrite <- !list_fmap_compose. by apply list_fmap_ext. }
  by rewrite <- Hb.
Qed.

Lemma scalar_components_witness :
  VecBase.scalar vec3_123 2%float = new_Vec3 (numbers [2; 4; 6]%float).
Proof.
  destruct (scalar_components vec3_123 2%float) as (_ & _ & _ & Hnum).
  apply (Hnum [1; 2; 3]%float). reflexivity.
Defined.

Section DotFacts.

(** [multiply] keeps the holes of the receiver: its result has an element
    to reduce exactly when the receiver has one. *)
Lemma multiply_present_nil (a b : VecObj) :
  array_present (body (VecBase.multiply a b)) = [] <->
  array_present (body a) = [].
Proof.
  unfold VecBase.multiply, VecBase.couple_element_wise; simpl.
  apply (array_present_map_nil
           (fun v i => js_mul v (array_get (body b) i))
           (VecBase.structuredClone (body a))).
Qed.

End DotFacts.

(** X7. [dot] throws, the [TypeError] of a [reduce] without initial value,
    exactly when the body of the receiver has no element at all (it is
    empty, or made of holes); the argument plays no part in that. *)
Theorem dot_throws_iff_no_element :
  forall a b : VecObj,
    VecBase.dot a b = Throws_TypeError <-> array_present (body a) = [].
Proof.
  intros a b. rewrite <- (multiply_present_nil a b).
  unfold VecBase.dot, array_reduce.
  by destruct (array_present (body (VecBase.multiply a b))).
Qed.

Lemma dot_throws_iff_no_element_witness :
  VecBase.dot (new_VecBase Vec3_swizzle_particals []) vec3_123
    = Throws_TypeError.
Proof.
  apply (proj2 (dot_throws_iff_no_element
                  (new_VecBase Vec3_swizzle_particals []) vec3_123)).
  reflexivity.
Defined.

(** X8. On two bodies of numbers of the same length, one at least, [dot]
    returns the products added from left to right, starting from the
    first product. *)
Theorem dot_of_numbers :
  forall (a b : VecObj) (x y : float) (la lb : list float),
    items (body a) = Some <$> numbers (x :: la) ->
    items (body b) = Some <$> numbers (y :: lb) ->
    length la = length lb ->
    VecBase.dot a b =
      Returns (Number (fold_left PrimFloat.add (zip_with PrimFloat.mul la lb)
                         (PrimFloat.mul x y))).
Proof.
  intros a b x y la lb Ha Hb Hlen. unfold VecBase.dot, VecBase.multiply.
  rewrite (couple_element_wise_numbers a b (x :: la) (y :: lb) _ Ha Hb)
    by (simpl; lia).
  unfold array_reduce. simpl body. rewrite array_present_of. simpl.
  rewrite zip_with_js_mul. unfold js_mul at 1; simpl.
  by rewrite fold_left_js_add.
Qed.

Lemma dot_of_numbers_witness :
  VecBase.dot vec3_123 vec3_456 = Returns (Number 32%float).
Proof.
  apply (dot_of_numbers vec3_123 vec3_456 1%float 4%float [2; 3]%float
           [5; 6]%float); reflexivity.
Defined.

(** X9. On two bodies holding the same count of numbers, [dot] does not
    depend on the order of the operands, whether it returns or throws. *)
Theorem dot_commutes :
  forall (a b : VecObj) (la lb : list float),
    items (body a) = Some <$> numbers la ->
    items (body b) = Some <$> numbers lb ->
    length la = length lb ->
    VecBase.dot a b = VecBase.dot b a.
Proof.
  intros a b la lb Ha Hb Hlen. unfold VecBase.dot.
  by rewrite (multiply_numbers_commute a b la lb Ha Hb Hlen).
Qed.

Lemma dot_commutes_witness :
  VecBase.dot vec3_123 vec3_456 = VecBase.dot vec3_456 vec3_123.
Proof.
  apply (dot_commutes vec3_123 vec3_456 [1; 2; 3]%float [4; 5; 6]%float);
    reflexivity.
Defined.

(** X10. [normalize] does not guard a null norm: on a body of [n] zeros
    the norm is [0], its inverse is infinite, and every component of the
    result is NaN. *)
Theorem normalize_zero_vector :
  forall (a : VecObj) (n : nat),
    items (body a) = Some <$> numbers (replicate n Ieee.pos_zero) ->
    VecBase.norm a = Ieee.pos_zero /\
    items (body (VecBase.normalize a)) = Some <$> numbers (replicate n nan).
Proof.
  intros a n Ha. pose proof (norm_of_zeros a n Ha) as Hnorm.
  split; [done|]. unfold VecBase.normalize. rewrite Hnorm, scalar_items, Ha.
  clear. induction n as [|n IH]; [done|]. simpl. f_equal. exact IH.
Qed.

Lemma normalize_zero_vector_witness :
  items (body (VecBase.normalize (new_Vec2 (numbers [0; 0]%float)))) =
    Some <$> numbers [nan; nan].
Proof.
  apply (normalize_zero_vector (new_Vec2 (numbers [0; 0]%float)) 2).
  reflexivity.
Defined.

(** X11. Whenever the body of the receiver has three elements, whatever
    they are (numbers, [undefined], holes) and whatever the argument is,
    [cross] returns a vector of exactly three numbers, with the prototype
    and the names of the receiver and no other property in its body. *)
Theorem cross_three_numbers :
  forall a b : VecObj,
    length (items (body a)) = 3%nat ->
    exists r1 r2 r3 : float,
      VecBase.cross a b =
        Some {| prototype := prototype a; swizzles := swizzles a;
                body := array_of (numbers [r1; r2; r3]) |}.
Proof.
  intros a b Hlen. unfold VecBase.cross, array_length. rewrite Hlen.
  simpl. eexists _, _, _. reflexivity.
Qed.

Lemma cross_three_numbers_witness :
  exists r1 r2 r3 : float,
    VecBase.cross vec3_123 vec2_10_20 =
      Some (new_Vec3 (numbers [r1; r2; r3])).
Proof.
  apply (cross_three_numbers vec3_123 vec2_10_20). reflexivity.
Defined.

(** X12. [cross] checks the length of the receiver only: with three
    numbers in the receiver and an argument whose body is empty, every
    product is NaN and the result is [(NaN, NaN, NaN)]. *)
Theorem cross_argument_without_body :
  forall (a b : VecObj) (ax ay az : float),
    items (body a) = Some <$> numbers [ax; ay; az] ->
    items (body b) = [] ->
    VecBase.cross a b =
      Some {| prototype := prototype a; swizzles := swizzles a;
              body := array_of (numbers [nan; nan; nan]) |}.
Proof.
  intros a b ax ay az Ha Hb. unfold VecBase.cross, array_length, array_spread.
  rewrite Ha, Hb. simpl. unfold VecBase.structuredClone.
  by rewrite !IeeeAlgebra.mul_nan_r.
Qed.

Lemma cross_argument_without_body_witness :
  VecBase.cross vec3_123 (new_VecBase Vec3_swizzle_particals []) =
    Some (new_Vec3 (numbers [nan; nan; nan])).
Proof.
  apply (cross_argument_without_body vec3_123
           (new_VecBase Vec3_swizzle_particals []) 1 2 3)%float; reflexivity.
Defined.

(** X13. On two bodies holding the same count of numbers, [angle] does
    not depend on the order of the operands, whatever [Math.acos] is. *)
Theorem angle_symmetric :
  forall (Math_acos : float -> float) (a b : VecObj) (la lb : list float),
    items (body a) = Some <$> numbers la ->
    items (body b) = Some <$> numbers lb ->
    length la = length lb ->
    VecBase.angle Math_acos a b = VecBase.angle Math_acos b a.
Proof.
  intros Math_acos a b la lb Ha Hb Hlen. unfold VecBase.angle, VecBase.dot.
  rewrite (multiply_numbers_commute a b la lb Ha Hb Hlen).
  by rewrite (IeeeAlgebra.mul_comm (VecBase.norm a) (VecBase.norm b)).
Qed.

Lemma angle_symmetric_witness :
  VecBase.angle PrimFloat.abs vec3_123 vec3_456 =
  VecBase.angle PrimFloat.abs vec3_456 vec3_123.
Proof.
  apply (angle_symmetric PrimFloat.abs vec3_123 vec3_456 [1; 2; 3]%float
           [4; 5; 6]%float); reflexivity.
Defined.

(** X14. [projection] throws exactly when [dot] does, that is when the
    body of the receiver has no element; when it returns, the result has
    the prototype, the names and the length of the argument, the vector
    projected on, whatever [Math.pow] is. *)
Theorem projection_shape :
  forall (Math_pow : float -> float -> float) (a b : VecObj),
    (VecBase.projection Math_pow a b = Throws_TypeError <->
     array_present (body a) = []) /\
    (forall r : VecObj, VecBase.projection Math_pow a b = Returns r ->
       prototype r = prototype b /\ swizzles r = swizzles b /\
       length (items (body r)) = length (items (body b))).
Proof.
  intros Math_pow a b. split.
  - rewrite <- (multiply_present_nil a b).
    unfold VecBase.projection, VecBase.dot, array_reduce.
    by destruct (array_present (body (VecBase.multiply a b))).
  - intros r. unfold VecBase.projection.
    destruct (VecBase.dot a b) as [c|]; [|done].
    intros [= <-]. split; [done|]. split; [done|].
    by rewrite scalar_items, length_fmap.
Qed.

Lemma projection_shape_witness :
  exists r : VecObj,
    VecBase.projection (fun x _ => PrimFloat.mul x x) vec3_123 vec3_456
      = Returns r /\
    swizzles r = Vec3_swizzle_particals /\ length (items (body r)) = 3%nat.
Proof.
  destruct (projection_shape (fun x _ => PrimFloat.mul x x) vec3_123 vec3_456)
    as [_ Hshape].
  eexists. split; [reflexivity|].
  destruct (Hshape _ eq_refl) as (_ & Hnames & Hlen).
  split; [exact Hnames | exact Hlen].
Defined.

(** ** The proxy: keys *)

Section KeyFacts.

(** No member of a vector has a name of one character. *)
Lemma single_char_not_member (c : ascii) :
  Reflect_has (KeyString (String c "")) = false.
Proof.
  unfold Reflect_has. apply bool_decide_eq_false. intros H.
  unfold own_keys, VecBase_prototype_keys, Object_prototype_keys in H.
  cbn [app] in H.
  repeat (apply elem_of_cons in H as [H|H]; [discriminate H|]).
  by apply not_elem_of_nil in H.
Qed.

Lemma member_not_over_xyzw (p : string) :
  Reflect_has (KeyString p) = true -> over_xyzw p = false.
Proof.
  unfold Reflect_has. intros H. apply bool_decide_eq_true in H.
  unfold own_keys, VecBase_prototype_keys, Object_prototype_keys in H.
  cbn [app] in H.
  repeat (apply elem_of_cons in H as [->|H]; [reflexivity|]).
  by apply not_elem_of_nil in H.
Qed.

End KeyFacts.

(** X15. A pattern that matches the names of a vector matches every list
    of names that has them all and is as long: a swizzle of [Vec2] is a
    swizzle of [Vec3], and a swizzle of [Vec3] one of [Vec4]. *)
Theorem swizzleMatch_monotone :
  (forall (names names' chars : list string),
      swizzleMatch names chars = true ->
      (forall c, c ∈ names -> c ∈ names') ->
      (length names <= length names')%nat ->
      swizzleMatch names' chars = true) /\
  (forall chars : list string,
      swizzleMatch Vec2_swizzle_particals chars = true ->
      swizzleMatch Vec3_swizzle_particals chars = true) /\
  (forall chars : list string,
      swizzleMatch Vec3_swizzle_particals chars = true ->
      swizzleMatch Vec4_swizzle_particals chars = true).
Proof.
  assert (forall (names names' chars : list string),
      swizzleMatch names chars = true ->
      (forall c, c ∈ names -> c ∈ names') ->
      (length names <= length names')%nat ->
      swizzleMatch names' chars = true) as Hmono.
  { intros names names' chars Hm Hsub Hlen.
    apply swizzleMatch_spec in Hm as [Hle Hin].
    apply swizzleMatch_spec. split; [lia|]. intros c Hc. by apply Hsub, Hin. }
  split; [exact Hmono|]. split; intros chars Hm.
  - apply (Hmono Vec2_swizzle_particals); [done| |simpl; lia].
    intros c Hc. revert Hc. unfold Vec2_swizzle_particals, Vec3_swizzle_particals.
    rewrite !elem_of_cons. tauto.
  - apply (Hmono Vec3_swizzle_particals); [done| |simpl; lia].
    intros c Hc. revert Hc. unfold Vec3_swizzle_particals, Vec4_swizzle_particals.
    rewrite !elem_of_cons. tauto.
Qed.

Lemma swizzleMatch_monotone_witness :
  swizzleMatch Vec4_swizzle_particals ["y"; "x"] = true.
Proof.
  destruct swizzleMatch_monotone as (_ & H23 & H34).
  apply H34, H23. reflexivity.
Defined.

(** X16. No swizzle of a vector with names among [x], [y], [z], [w] is
    hidden by a member: a key that matches such names is never a declared
    member, so the handlers always treat it as a pattern. *)
Theorem swizzles_not_shadowed :
  forall (names : list string) (p : string),
    (forall c, c ∈ names -> c ∈ Vec4_swizzle_particals) ->
    swizzleMatch names (split_chars p) = true ->
    Reflect_has (KeyString p) = false.
Proof.
  intros names p Hnames Hm.
  apply swizzleMatch_spec in Hm as [_ Hin].
  assert (over_xyzw p = true) as Hover.
  { unfold over_xyzw. apply forallb_forall. intros c Hc.
    apply bool_decide_eq_true, Hnames, Hin. by apply list_elem_of_In. }
  destruct (Reflect_has (KeyString p)) eqn:E; [|done].
  apply member_not_over_xyzw in E. congruence.
Qed.

Lemma swizzles_not_shadowed_witness :
  Reflect_has (KeyString "wzyx") = false.
Proof.
  apply (swizzles_not_shadowed Vec4_swizzle_particals "wzyx");
    [done | reflexivity].
Defined.

(** ** The proxy: reads *)

(** X17. A read through the proxy never changes a vector that exists:
    whatever the key, every vector of the heap is afterwards what it was.
    The heap is the same unless the read returns a vector, and then it has
    one more vector, at an address that was free, whose proxy has the
    swizzles of that vector. *)
Theorem proxy_get_frame :
  forall (h h' : heap) (v : view) (p : property_key) (r : get_result),
    proxy_get h v p = Some (h', r) ->
    (forall (l : loc) (o : VecObj), h !! l = Some o -> h' !! l = Some o) /\
    match r with
    | GetVec w =>
        h !! target w = None /\
        exists o : VecObj,
          h' = <[target w := o]> h /\ valid_names w = swizzles o
    | _ => h' = h
    end.
Proof.
  intros h h' v p r. unfold proxy_get.
  destruct (Reflect_has p); [by intros [= <- <-]|].
  destruct p as [s|id]; [|by intros [= <- <-]].
  destruct (swizzleMatch (valid_names v) (split_chars s)); simpl;
    [|by intros [= <- <-]].
  destruct (h !! target v) as [t|]; simpl; [|done].
  set (result := VecBase.get_dimension t <$> split_chars s).
  destruct (swizzle_vector_spec (valid_names v) result) as [_ Hnames].
  destruct (swizzle_vector (valid_names v) result) as [o names] eqn:Eo.
  cbn [fst snd] in *. subst names. unfold alloc.
  assert (h !! fresh (dom h) = None) as Hfresh
    by apply not_elem_of_dom, is_fresh.
  assert (forall (l' : loc) (o' : VecObj),
             h !! l' = Some o' -> <[fresh (dom h) := o]> h !! l' = Some o')
    as Hkeep.
  { intros l' o' Hl'. rewrite lookup_insert_ne; [done|]. congruence. }
  destruct result as [|c [|c' result]]; intros [= <- <-]; simpl.
  - split; [done|]. split; [done|]. by exists o.
  - done.
  - split; [done|]. split; [done|]. by exists o.
Qed.

Lemma proxy_get_frame_witness :
  (<[3%positive := new_Vec2 (numbers [3; 2]%float)]> heap_10_20)
    !! target view_10_20 = Some vec2_10_20.
Proof.
  assert (proxy_get heap_10_20 view_123 (KeyString "zy") =
            Some (<[3%positive := new_Vec2 (numbers [3; 2]%float)]> heap_10_20,
                  GetVec (createVecProxy 3%positive Vec2_swizzle_particals)))
    as Hget by reflexivity.
  destruct (proxy_get_frame _ _ _ _ _ Hget) as [Hkeep _].
  apply Hkeep. reflexivity.
Defined.

(** X18. The class of the vector a swizzle read returns follows the
    length of the pattern: two, three and four characters give a [Vec2],
    a [Vec3], a [Vec4] with the names of that class, five or more a plain
    [VecBase] with the names of the proxy; the body is the gather. *)
Theorem swizzle_read_class :
  forall (h : heap) (v : view) (t : VecObj) (p : string),
    h !! target v = Some t ->
    Reflect_has (KeyString p) = false ->
    swizzleMatch (valid_names v) (split_chars p) = true ->
    let result := VecBase.get_dimension t <$> split_chars p in
    let l := fresh (dom h) in
    (length (split_chars p) = 2%nat ->
     proxy_get h v (KeyString p) =
       Some (<[l := new_Vec2 result]> h,
             GetVec (createVecProxy l Vec2_swizzle_particals))) /\
    (length (split_chars p) = 3%nat ->
     proxy_get h v (KeyString p) =
       Some (<[l := new_Vec3 result]> h,
             GetVec (createVecProxy l Vec3_swizzle_particals))) /\
    (length (split_chars p) = 4%nat ->
     proxy_get h v (KeyString p) =
       Some (<[l := new_Vec4 result]> h,
             GetVec (createVecProxy l Vec4_swizzle_particals))) /\
    ((5 <= length (split_chars p))%nat ->
     proxy_get h v (KeyString p) =
       Some (<[l := new_VecBase (valid_names v) result]> h,
             GetVec (createVecProxy l (valid_names v)))).
Proof.
  intros h v t p Ht Hmember Hmatch result l.
  unfold proxy_get. rewrite Hmember, Hmatch. simpl. rewrite Ht. simpl.
  fold result. unfold swizzle_vector.
  assert (length result = length (split_chars p)) as Hlen
    by apply length_fmap.
  rewrite Hlen.
  repeat split; intros Hk.
  - rewrite Hk. destruct result as [|c1 [|c2 [|c3 result]]]; simpl in *;
      try lia; done.
  - rewrite Hk. destruct result as [|c1 [|c2 [|c3 result]]]; simpl in *;
      try lia; done.
  - rewrite Hk. destruct result as [|c1 [|c2 [|c3 result]]]; simpl in *;
      try lia; done.
  - destruct (length (split_chars p)) as [|[|[|[|[|k]]]]]; try lia.
    destruct result as [|c1 [|c2 [|c3 result]]]; simpl in *; try lia; done.
Qed.

Lemma swizzle_read_class_witness :
  proxy_get heap_123 view_123 (KeyString "zx") =
    Some (<[2%positive := new_Vec2 (numbers [3; 1]%float)]> heap_123,
          GetVec (createVecProxy 2%positive Vec2_swizzle_particals)).
Proof.
  destruct (swizzle_read_class heap_123 view_123 vec3_123 "zx")
    as (H2 & _); [reflexivity | reflexivity | reflexivity |].
  apply H2. reflexivity.
Defined.

(** X19. Reversing twice gives the vector back: through the proxy of a
    vector with the names [x], [y], [z], the read of [zyx] returns a
    [Vec3] of the components in the opposite order, and the read of [zyx]
    through the proxy returned gives a [Vec3] of the components in their
    first order; the first vector is untouched. *)
Theorem swizzle_reverse_twice :
  forall (h : heap) (v : view) (t : VecObj),
    h !! target v = Some t ->
    valid_names v = Vec3_swizzle_particals ->
    swizzles t = Vec3_swizzle_particals ->
    let x := VecBase.get_dimension t "x" in
    let y := VecBase.get_dimension t "y" in
    let z := VecBase.get_dimension t "z" in
    exists (h1 h2 : heap) (w1 w2 : view),
      proxy_get h v (KeyString "zyx") = Some (h1, GetVec w1) /\
      h1 !! target w1 = Some (new_Vec3 [z; y; x]) /\
      proxy_get h1 w1 (KeyString "zyx") = Some (h2, GetVec w2) /\
      h2 !! target w2 = Some (new_Vec3 [x; y; z]) /\
      h2 !! target v = Some t.
Proof.
  intros h v t Ht Hv Hnames x y z.
  set (l1 := fresh (dom h)).
  set (h1 := <[l1 := new_Vec3 [z; y; x]]> h).
  set (l2 := fresh (dom h1)).
  assert (h !! l1 = None) as Hl1 by apply not_elem_of_dom, is_fresh.
  assert (h1 !! l2 = None) as Hl2 by apply not_elem_of_dom, is_fresh.
  exists h1, (<[l2 := new_Vec3 [x; y; z]]> h1),
    (createVecProxy l1 Vec3_swizzle_particals),
    (createVecProxy l2 Vec3_swizzle_particals).
  split; [|split; [|split; [|split]]].
  - unfold proxy_get. rewrite Hv. simpl. by rewrite Ht.
  - apply lookup_insert_eq.
  - assert (h1 !! l1 = Some (new_Vec3 [z; y; x])) as E by apply lookup_insert_eq.
    unfold proxy_get. simpl. rewrite E. reflexivity.
  - apply lookup_insert_eq.
  - assert (h1 !! target v = Some t) as Hkeep.
    { unfold h1. rewrite lookup_insert_ne; [done | congruence]. }
    rewrite lookup_insert_ne; [done | congruence].
Qed.

Lemma swizzle_reverse_twice_witness :
  exists (h1 h2 : heap) (w1 w2 : view),
    proxy_get heap_123 view_123 (KeyString "zyx") = Some (h1, GetVec w1) /\
    h1 !! target w1 = Some (new_Vec3 (numbers [3; 2; 1]%float)) /\
    proxy_get h1 w1 (KeyString "zyx") = Some (h2, GetVec w2) /\
    h2 !! target w2 = Some vec3_123 /\
    h2 !! target view_123 = Some vec3_123.
Proof.
  apply (swizzle_reverse_twice heap_123 view_123 vec3_123); reflexivity.
Defined.

(** ** The proxy: writes *)

Section WriteFacts.
Import VecBase.

(** Writing under a known name the number that is there changes nothing
    at all. *)
Lemma set_dimension_same_value (t : VecObj) (d : string) (x : float) :
  d ∈ swizzles t -> get_dimension t d = Number x -> set_dimension t d x = t.
Proof.
  intros Hd Hx. destruct (find_swizzle_index_known t d Hd) as (n & Hn & _).
  unfold get_dimension in Hx. unfold set_dimension. rewrite Hn in *.
  destruct t as [pr sw [its prs]]; simpl in *. do 2 f_equal.
  unfold array_get, array_set in *; simpl in *.
  rewrite (proj2 (Z.ltb_ge _ _)) in * by lia. rewrite Nat2Z.id in *.
  f_equal. unfold read_slot in Hx. unfold write_slot.
  destruct (its !! n) as [[c|]|] eqn:E; try done. subst c.
  rewrite (proj2 (Nat.ltb_lt _ _)) by (by eapply lookup_lt_Some).
  by apply list_insert_id.
Qed.


Variables (tgt src : loc).


(** The loop with the target for source, on names the target has a number
    for, leaves the heap as it is. *)
Lemma set_loop_self (chars : list string) (h : heap) (t : VecObj) :
  h !! tgt = Some t ->
  (forall d, d ∈ chars -> d ∈ swizzles t) ->
  (forall d, d ∈ chars -> typeof_number (get_dimension t d) = true) ->
  set_loop h tgt tgt chars = Some (h, true).
Proof.
  intros Ht. induction chars as [|d chars IH]; intros Hknown Hnum; [done|].
  simpl. rewrite Ht. simpl.
  specialize (Hnum d (list_elem_of_here _ _)) as Hd.
  destruct (get_dimension t d) as [|x] eqn:Ex; [done|].
  rewrite (set_dimension_same_value t d x) by (done || apply Hknown, list_elem_of_here).
  rewrite (insert_id h tgt t Ht). apply IH.
  - intros e He. apply Hknown. by right.
  - intros e He. apply Hnum. by right.
Qed.

End WriteFacts.





(** X22. Assigning a vector to a swizzle of itself changes nothing: when
    the target has a number under each character of the pattern, the
    write returns [true] and the heap is exactly as before. *)
Theorem swizzle_self_assignment :
  forall (h : heap) (v : view) (p : string) (t : VecObj),
    h !! target v = Some t ->
    valid_names v = swizzles t ->
    Reflect_has (KeyString p) = false ->
    swizzleMatch (valid_names v) (split_chars p) = true ->
    (forall d, d ∈ split_chars p ->
       typeof_number (VecBase.get_dimension t d) = true) ->
    proxy_set h v (KeyString p) (VVec (target v)) = Some (h, SetStatus true).
Proof.
  intros h v p t Ht Hnames Hmember Hmatch Hnum.
  unfold proxy_set. rewrite Hmember, Hmatch. simpl.
  apply swizzleMatch_spec in Hmatch as [_ Hin].
  rewrite (set_loop_self (target v) (split_chars p) h t Ht); [done| |done].
  intros d Hd. rewrite <- Hnames. by apply Hin.
Qed.

Lemma swizzle_self_assignment_witness :
  proxy_set heap_123 view_123 (KeyString "zxy") (VVec (target view_123)) =
    Some (heap_123, SetStatus true).
Proof.
  apply (swizzle_self_assignment heap_123 view_123 "zxy" vec3_123);
    try reflexivity.
  intros d Hd. simpl in Hd.
  repeat (apply elem_of_cons in Hd as [->|Hd]; [reflexivity|]).
  by apply not_elem_of_nil in Hd.
Defined.

(** X23. What a swizzle write stores, a read of one character gives
    back: after a write that succeeds, the read through the same proxy of
    any single character of the pattern returns the component of the source
    under that name, and reads nothing else. *)
Theorem swizzle_write_then_read :
  forall (h : heap) (v : view) (p : string) (src : loc) (t s : VecObj)
         (c : ascii),
    h !! target v = Some t -> h !! src = Some s ->
    valid_names v = swizzles t ->
    Reflect_has (KeyString p) = false ->
    swizzleMatch (valid_names v) (split_chars p) = true ->
    (forall d, d ∈ split_chars p ->
       typeof_number (VecBase.get_dimension s d) = true) ->
    String c "" ∈ split_chars p ->
    exists h' : heap,
      proxy_set h v (KeyString p) (VVec src) = Some (h', SetStatus true) /\
      proxy_get h' v (KeyString (String c "")) =
        Some (h', GetValue (VecBase.get_dimension s (String c ""))).
Proof.
  intros h v p src t s c Ht Hs Hnames Hmember Hmatch Hnum Hc.
  apply swizzleMatch_spec in Hmatch as Hspec. destruct Hspec as [Hle Hin].
  destruct (set_loop_prefix (target v) src (split_chars p) h t s [] Ht Hs)
    as (t1 & s1 & Hloop & _ & _ & Hsw & Hread & _).
  { intros d Hd. rewrite <- Hnames. by apply Hin. }
  { done. }
  rewrite app_nil_r in Hloop.
  exists (<[target v := t1]> h). split.
  - unfold proxy_set. rewrite Hmember, Hmatch. simpl. by rewrite Hloop.
  - unfold proxy_get. rewrite single_char_not_member.
    assert (swizzleMatch (valid_names v) (split_chars (String c "")) = true)
      as ->.
    { apply swizzleMatch_spec. simpl. split.
      - destruct (split_chars p) as [|d chars]; [by apply not_elem_of_nil in Hc|].
        simpl in Hle. lia.
      - intros d Hd. apply list_elem_of_singleton in Hd as ->. by apply Hin. }
    simpl. rewrite lookup_insert_eq. simpl. by rewrite (Hread _ Hc).
Qed.

Lemma swizzle_write_then_read_witness :
  exists h' : heap,
    proxy_set heap_10_20 view_123 (KeyString "yx") (VVec (target view_10_20))
      = Some (h', SetStatus true) /\
    proxy_get h' view_123 (KeyString "y") = Some (h', GetValue (Number 20%float)).
Proof.
  apply (swizzle_write_then_read heap_10_20 view_123 "yx" (target view_10_20)
           vec3_123 vec2_10_20 "y"%char); try reflexivity.
  - intros d Hd. simpl in Hd.
    repeat (apply elem_of_cons in Hd as [->|Hd]; [reflexivity|]).
    by apply not_elem_of_nil in Hd.
  - by_decide.
Defined.

(** X24. Reading [yx] and writing the result to [xy] swaps the two
    components: the vector read holds [(y, x)] under the names [x], [y],
    and the write, by name, puts the old [y] under [x] and the old [x] under
    [y]; every other component of the target is as before. *)
Theorem swizzle_swap :
  forall (h : heap) (v : view) (t : VecObj) (a b : float),
    h !! target v = Some t ->
    valid_names v = swizzles t ->
    swizzleMatch (valid_names v) ["y"; "x"] = true ->
    VecBase.get_dimension t "x" = Number a ->
    VecBase.get_dimension t "y" = Number b ->
    exists (h1 h2 : heap) (w : view) (t2 : VecObj),
      proxy_get h v (KeyString "yx") = Some (h1, GetVec w) /\
      proxy_set h1 v (KeyString "xy") (VVec (target w))
        = Some (h2, SetStatus true) /\
      h2 !! target v = Some t2 /\
      VecBase.get_dimension t2 "x" = Number b /\
      VecBase.get_dimension t2 "y" = Number a /\
      (forall d : string, d <> "x" -> d <> "y" ->
         VecBase.get_dimension t2 d = VecBase.get_dimension t d).
Proof.
  intros h v t a b Ht Hnames Hmatch Hx Hy.
  apply swizzleMatch_spec in Hmatch as Hspec. destruct Hspec as [Hle Hin].
  set (l := fresh (dom h)).
  set (s := new_Vec2 [Number b; Number a]).
  set (h1 := <[l := s]> h).
  assert (h !! l = None) as Hl by apply not_elem_of_dom, is_fresh.
  assert (h1 !! target v = Some t) as Ht1.
  { unfold h1. rewrite lookup_insert_ne; [done | congruence]. }
  assert (h1 !! l = Some s) as Hs1 by apply lookup_insert_eq.
  assert (swizzleMatch (valid_names v) ["x"; "y"] = true) as Hmatch'.
  { apply swizzleMatch_spec. split; [done|]. intros d Hd. apply Hin.
    revert Hd. rewrite !elem_of_cons. tauto. }
  destruct (set_loop_prefix (target v) l ["x"; "y"] h1 t s [] Ht1 Hs1)
    as (t1 & s1 & Hloop & _ & _ & Hsw & Hread & Hout).
  { intros d Hd. rewrite <- Hnames. apply Hin.
    revert Hd. rewrite !elem_of_cons. tauto. }
  { intros d Hd.
    repeat (apply elem_of_cons in Hd as [->|Hd]; [reflexivity|]).
    by apply not_elem_of_nil in Hd. }
  rewrite app_nil_r in Hloop.
  exists h1, (<[target v := t1]> h1),
    (createVecProxy l Vec2_swizzle_particals), t1.
  split; [|split; [|split; [|split; [|split]]]].
  - unfold proxy_get.
    change (Reflect_has (KeyString "yx")) with false. cbv iota.
    change (split_chars "yx") with ["y"; "x"]. rewrite Hmatch. simpl.
    rewrite Ht. simpl. by rewrite Hx, Hy.
  - unfold proxy_set.
    change (Reflect_has (KeyString "xy")) with false. cbv iota.
    change (split_chars "xy") with ["x"; "y"]. rewrite Hmatch'. simpl negb.
    cbv iota. cbn [target createVecProxy]. rewrite Hloop. reflexivity.
  - apply lookup_insert_eq.
  - rewrite (Hread "x") by (rewrite !elem_of_cons; tauto). reflexivity.
  - rewrite (Hread "y") by (rewrite !elem_of_cons; tauto). reflexivity.
  - intros d Hdx Hdy. apply Hout. rewrite !elem_of_cons.
    intros [?|[?|H]]; [done | done | by apply not_elem_of_nil in H].
Qed.

Lemma swizzle_swap_witness :
  exists (h1 h2 : heap) (w : view) (t2 : VecObj),
    proxy_get heap_123 view_123 (KeyString "yx") = Some (h1, GetVec w) /\
    proxy_set h1 view_123 (KeyString "xy") (VVec (target w))
      = Some (h2, SetStatus true) /\
    h2 !! target view_123 = Some t2 /\
    VecBase.get_dimension t2 "x" = Number 2%float /\
    VecBase.get_dimension t2 "y" = Number 1%float /\
    (forall d : string, d <> "x" -> d <> "y" ->
       VecBase.get_dimension t2 d = VecBase.get_dimension vec3_123 d).
Proof.
  apply (swizzle_swap heap_123 view_123 vec3_123 1%float 2%float);
    reflexivity.
Defined.
